(** * Downloader bot: a shallow embedding of [main.py]

    The bot receives a chat message holding a URL, rewrites Google Drive
    share links, streams the file to [/tmp], reports progress by editing a
    status message, sends the document and removes the local copy.

    Modelling conventions.
    - A Python [str] is modelled by its UTF-8 encoding, a [string] of bytes.
      The operations the handler uses ([strip], [startswith], the regular
      expression, [in], concatenation) act the same way on the encoding.
    - Effects are threaded through a small state-and-exception monad over a
      [world]: the local file system (a finite map from paths to contents)
      and the log of calls made to the messaging platform. Opening and
      writing a local file always succeed.
    - What the outside decides (the HTTP response, the loop clock, whether
      the platform accepts a call) is an explicit input, the [env].
    - [downloaded * 100 / total] is Python's true division: the binary64
      number nearest to the quotient, which [int] then truncates.
    - Readings of the loop clock are rationals, and [now - last_update] is
      their exact difference.
    - [hashlib.md5] is embedded; the tables of [mimetypes] are parameters. *)

From Stdlib Require Import ZArith QArith String Ascii List Lia DecimalString.
From stdpp Require Import gmap strings.

Open Scope string_scope.

(** ** Strings *)

Module Str.

(** [s.startswith(p)], returning the rest of [s] after [p]. *)
Fixpoint strip_prefix (p s : string) : option string :=
  match p, s with
  | EmptyString, _ => Some s
  | String a p', String b s' => if Ascii.eqb a b then strip_prefix p' s' else None
  | String _ _, EmptyString => None
  end.

Definition startswith (p s : string) : bool :=
  match strip_prefix p s with Some _ => true | None => false end.

(** [p in s] for strings. *)
Fixpoint contains (p s : string) : bool :=
  startswith p s ||
  match s with
  | EmptyString => false
  | String _ s' => contains p s'
  end.

(** Every character of [s] satisfies [p]. *)
Fixpoint all (p : ascii -> bool) (s : string) : bool :=
  match s with
  | EmptyString => true
  | String c s' => p c && all p s'
  end.

(** [s.endswith(p)] *)
Fixpoint endswith (p s : string) : bool :=
  String.eqb p s ||
  match s with
  | EmptyString => false
  | String _ s' => endswith p s'
  end.

(** [s[:n]]. *)
Fixpoint take (n : nat) (s : string) : string :=
  match n, s with
  | S n', String c s' => String c (take n' s')
  | _, _ => EmptyString
  end.

(** The first [length s - length rest] bytes of [s]: what a matcher consumed
    when it was handed [s] and left [rest]. *)
Definition consumed (s rest : string) : string :=
  take (String.length s - String.length rest) s.

Definition of_bytes (l : list nat) : string :=
  fold_right (fun n s => String (ascii_of_nat n) s) EmptyString l.

(** The characters [str.isspace] accepts, in UTF-8: U+0009..U+000D,
    U+001C..U+0020, U+0085, U+00A0, U+1680, U+2000..U+200A, U+2028, U+2029,
    U+202F, U+205F and U+3000. *)
Definition whitespace : list string :=
  map of_bytes
    ([[9]; [10]; [11]; [12]; [13]; [28]; [29]; [30]; [31]; [32];
      [194; 133]; [194; 160]; [225; 154; 128]] ++
     map (fun k => [226; 128; k]) (seq 128 11) ++
     [[226; 128; 168]; [226; 128; 169]; [226; 128; 175]; [226; 129; 159];
      [227; 128; 128]])%list.

(** The rest of [s] after one leading whitespace character, if it has one. *)
Fixpoint drop_one (ws : list string) (s : string) : option string :=
  match ws with
  | [] => None
  | w :: ws' =>
      match strip_prefix w s with
      | Some rest => Some rest
      | None => drop_one ws' s
      end
  end.

Fixpoint lstrip_fuel (fuel : nat) (s : string) : string :=
  match fuel with
  | O => s
  | S fuel' =>
      match drop_one whitespace s with
      | Some rest => lstrip_fuel fuel' rest
      | None => s
      end
  end.

Definition lstrip (s : string) : string := lstrip_fuel (String.length s) s.

(** [s] holds whitespace only. *)
Definition isspace_all (s : string) : bool :=
  match lstrip s with EmptyString => true | _ => false end.

Fixpoint rstrip (s : string) : string :=
  match s with
  | EmptyString => EmptyString
  | String c s' => if isspace_all s then EmptyString else String c (rstrip s')
  end.

(** [s.strip()]. *)
Definition strip (s : string) : string := rstrip (lstrip s).

(** [str(n)] for an integer. *)
Definition of_Z (n : Z) : string := NilZero.string_of_int (Z.to_int n).

End Str.

(** ** The regular expressions of [re] that the bot uses

    A backtracking matcher in continuation-passing style, greedy as Python's:
    a repetition first tries to take one more character, and gives back
    characters only when the rest of the pattern fails. *)

Module Re.

Inductive regex : Type :=
| Lit (s : string)                 (* literal characters *)
| Star (cls : ascii -> bool)       (* a starred character class *)
| Plus (cls : ascii -> bool)       (* a character class, once or more *)
| Opt (r : regex)                  (* an optional non-capturing group *)
| Cat (r1 r2 : regex)              (* concatenation *)
| Group (r : regex).               (* the capture group 1 *)

Section Matcher.
Context {A : Type}.

(** The continuation receives the unread rest and the text of group 1. *)
Definition cont : Type := string -> option string -> option A.

Fixpoint star (cls : ascii -> bool) (s : string) (cap : option string)
    (k : cont) : option A :=
  match s with
  | String c s' =>
      if cls c then
        match star cls s' cap k with
        | Some r => Some r
        | None => k s cap
        end
      else k s cap
  | EmptyString => k s cap
  end.

Fixpoint run (r : regex) (s : string) (cap : option string) (k : cont)
    : option A :=
  match r with
  | Lit l =>
      match Str.strip_prefix l s with
      | Some rest => k rest cap
      | None => None
      end
  | Star cls => star cls s cap k
  | Plus cls =>
      match s with
      | String c s' => if cls c then star cls s' cap k else None
      | EmptyString => None
      end
  | Opt r' =>
      match run r' s cap k with
      | Some x => Some x
      | None => k s cap
      end
  | Cat r1 r2 => run r1 s cap (fun rest cap' => run r2 rest cap' k)
  | Group r' => run r' s cap (fun rest _ => k rest (Some (Str.consumed s rest)))
  end.
End Matcher.

(** [r.match(s)]: anchored at the start of [s], free at its end. The result
    is the match object, here reduced to its group 1. *)
Definition match_ (r : regex) (s : string) : option (option string) :=
  run r s None (fun _ cap => Some cap).

Definition in_range (lo hi : nat) (c : ascii) : bool :=
  let n := nat_of_ascii c in (lo <=? n)%nat && (n <=? hi)%nat.

(** [[a-zA-Z0-9_-]] *)
Definition id_char (c : ascii) : bool :=
  in_range 97 122 c || in_range 65 90 c || in_range 48 57 c
  || Ascii.eqb c "_" || Ascii.eqb c "-".

(** [[^?]] *)
Definition not_question (c : ascii) : bool := negb (Ascii.eqb c "?").

(** [.] without DOTALL: anything but a line feed. *)
Definition dot (c : ascii) : bool := negb (Ascii.eqb c "010").

End Re.

(** ** Link normalizer *)

(** The pattern of line 32: the literal [https://drive.google.com/file/d/],
    group 1 [[a-zA-Z0-9_-]+], a slash, any number of [[^?]], and an optional
    question mark followed by any number of [.]; none of the groups after
    the first captures. *)
Definition GDRIVE_REGEX : Re.regex :=
  Re.Cat (Re.Lit "https://drive.google.com/file/d/")
    (Re.Cat (Re.Group (Re.Plus Re.id_char))
       (Re.Cat (Re.Lit "/")
          (Re.Cat (Re.Star Re.not_question)
             (Re.Opt (Re.Cat (Re.Lit "?") (Re.Star Re.dot)))))).

(** [GDRIVE_DIRECT.format(file_id)] *)
Definition GDRIVE_DIRECT (file_id : string) : string :=
  "https://drive.google.com/uc?export=download&id=" ++ file_id.

(** Lines 77-80 of [handle_link]: the rewrite of a share link. *)
Definition normalize (url : string) : string :=
  match Re.match_ GDRIVE_REGEX url with
  | Some (Some file_id) => GDRIVE_DIRECT file_id
  | Some None => GDRIVE_DIRECT "None"
  | None => url
  end.

(** ** Exceptions *)

(** What the collaborators raise (the HTTP client, the messaging platform);
    each carries [str(e)]. *)
Inductive outside_exn : Type :=
| TelegramRetryAfter (msg : string)   (* aiogram: flood control *)
| TelegramBadRequest (msg : string)   (* aiogram: HTTP 400 from the platform *)
| OtherError (msg : string).          (* any other [Exception] *)

(** The exceptions that travel through the handler. All of them derive from
    [Exception]; [DownloadError] is the bot's own class (line 43), which
    only line 50 raises. *)
Inductive exn : Type :=
| DownloadError (msg : string)
| OverflowError (msg : string)
| ZeroDivisionError (msg : string)
| OSError (msg : string)
| Outside (e : outside_exn).

(** [str(e)] *)
Definition exn_str (e : exn) : string :=
  match e with
  | DownloadError m | OverflowError m | ZeroDivisionError m | OSError m
  | Outside (TelegramRetryAfter m) | Outside (TelegramBadRequest m)
  | Outside (OtherError m) => m
  end.

Inductive result (A : Type) : Type :=
| Ok (a : A)
| Raise (e : exn).
Arguments Ok {A} a.
Arguments Raise {A} e.

(** ** Python's [int / int] and [int(float)]

    [a / b] on integers is the binary64 number nearest to the exact quotient,
    ties to even. Every finite binary64 number is an integer multiple of
    2^-1074, so a float [x] is held as the integer [x * 2^1074]. *)

Module Float.
Local Open Scope Z_scope.

Definition scale : Z := 2 ^ 1074.

(** [a / d] rounded to the nearest integer, ties to even ([0 <= a], [0 < d]). *)
Definition round_half_even (a d : Z) : Z :=
  let q := a / d in
  let r := a mod d in
  if (d <? 2 * r) || ((d =? 2 * r) && Z.odd q) then q + 1 else q.

(** The binary64 number nearest to [n / b], for [0 <= n] and [0 < b], with
    no bound on the exponent. [t] is the exponent of the last place, counted
    from 2^-1074: 53 significant bits, or fewer below 2^-1022. *)
Definition nearest (n b : Z) : Z :=
  let N := n * scale in
  let t := Z.max 0 (Z.log2 (N / b) - 52) in
  round_half_even N (b * 2 ^ t) * 2 ^ t.

(** The first magnitude that is no float: 2^1024. *)
Definition huge : Z := 2 ^ 1024 * scale.

(** [a / b] *)
Definition true_divide (a b : Z) : result Z :=
  if b =? 0 then Raise (ZeroDivisionError "division by zero")
  else
    let v := nearest (Z.abs a) (Z.abs b) in
    if huge <=? v then
      Raise (OverflowError "integer division result too large for a float")
    else Ok (Z.sgn a * Z.sgn b * v).

(** [int(x)]: truncation towards zero. *)
Definition to_int (x : Z) : Z := Z.quot x scale.

End Float.

(** ** [hashlib.md5] (RFC 1321) *)

Module MD5.
Local Open Scope Z_scope.

Definition w32 (x : Z) : Z := x mod 2 ^ 32.
Definition not32 (x : Z) : Z := Z.lxor x 0xffffffff.
Definition rotl (x c : Z) : Z :=
  w32 (Z.lor (Z.shiftl x c) (Z.shiftr x (32 - c))).

Definition shifts : list Z :=
  [7; 12; 17; 22; 7; 12; 17; 22; 7; 12; 17; 22; 7; 12; 17; 22;
   5; 9; 14; 20; 5; 9; 14; 20; 5; 9; 14; 20; 5; 9; 14; 20;
   4; 11; 16; 23; 4; 11; 16; 23; 4; 11; 16; 23; 4; 11; 16; 23;
   6; 10; 15; 21; 6; 10; 15; 21; 6; 10; 15; 21; 6; 10; 15; 21].

(** [floor(2^32 * abs(sin(i + 1)))] *)
Definition sines : list Z :=
  [0xd76aa478; 0xe8c7b756; 0x242070db; 0xc1bdceee;
   0xf57c0faf; 0x4787c62a; 0xa8304613; 0xfd469501;
   0x698098d8; 0x8b44f7af; 0xffff5bb1; 0x895cd7be;
   0x6b901122; 0xfd987193; 0xa679438e; 0x49b40821;
   0xf61e2562; 0xc040b340; 0x265e5a51; 0xe9b6c7aa;
   0xd62f105d; 0x02441453; 0xd8a1e681; 0xe7d3fbc8;
   0x21e1cde6; 0xc33707d6; 0xf4d50d87; 0x455a14ed;
   0xa9e3e905; 0xfcefa3f8; 0x676f02d9; 0x8d2a4c8a;
   0xfffa3942; 0x8771f681; 0x6d9d6122; 0xfde5380c;
   0xa4beea44; 0x4bdecfa9; 0xf6bb4b60; 0xbebfbc70;
   0x289b7ec6; 0xeaa127fa; 0xd4ef3085; 0x04881d05;
   0xd9d4d039; 0xe6db99e5; 0x1fa27cf8; 0xc4ac5665;
   0xf4292244; 0x432aff97; 0xab9423a7; 0xfc93a039;
   0x655b59c3; 0x8f0ccc92; 0xffeff47d; 0x85845dd1;
   0x6fa87e4f; 0xfe2ce6e0; 0xa3014314; 0x4e0811a1;
   0xf7537e82; 0xbd3af235; 0x2ad7d2bb; 0xeb86d391].

Definition state : Type := (Z * Z * Z * Z)%type.

Definition init : state := (0x67452301, 0xefcdab89, 0x98badcfe, 0x10325476).

(** Operation [i] (0..63) on the sixteen words [m] of a block. *)
Definition step (m : list Z) (st : state) (i : nat) : state :=
  let '(a, b, c, d) := st in
  let '(f, g) :=
    if (i <? 16)%nat then
      (Z.lor (Z.land b c) (Z.land (not32 b) d), i)
    else if (i <? 32)%nat then
      (Z.lor (Z.land d b) (Z.land (not32 d) c), ((5 * i + 1) mod 16)%nat)
    else if (i <? 48)%nat then
      (Z.lxor (Z.lxor b c) d, ((3 * i + 5) mod 16)%nat)
    else
      (Z.lxor c (Z.lor b (not32 d)), ((7 * i) mod 16)%nat) in
  let x := w32 (f + a + nth i sines 0 + nth g m 0) in
  (d, w32 (b + rotl x (nth i shifts 0)), b, c).

Definition add_state (s1 s2 : state) : state :=
  let '(a1, b1, c1, d1) := s1 in
  let '(a2, b2, c2, d2) := s2 in
  (w32 (a1 + a2), w32 (b1 + b2), w32 (c1 + c2), w32 (d1 + d2)).

Definition block (st : state) (m : list Z) : state :=
  add_state st (fold_left (step m) (seq 0 64) st).

(** Little-endian bytes and words. *)
Definition le_bytes (n : nat) (x : Z) : list Z :=
  map (fun k => (x / 2 ^ (8 * Z.of_nat k)) mod 256) (seq 0 n).

Fixpoint le_words (fuel : nat) (bs : list Z) : list Z :=
  match fuel, bs with
  | S fuel', b0 :: b1 :: b2 :: b3 :: rest =>
      (b0 + 256 * b1 + 65536 * b2 + 16777216 * b3) :: le_words fuel' rest
  | _, _ => []
  end.

Fixpoint blocks (fuel : nat) (ws : list Z) : list (list Z) :=
  match fuel, ws with
  | S fuel', _ :: _ => firstn 16 ws :: blocks fuel' (skipn 16 ws)
  | _, _ => []
  end.

Definition bytes_of (s : string) : list Z :=
  map (fun c => Z.of_nat (nat_of_ascii c)) (list_ascii_of_string s).

(** The message, a 1 bit, zeros up to 56 modulo 64, and the bit length. *)
Definition pad (bs : list Z) : list Z :=
  let len := List.length bs in
  let zeros := ((64 + 55 - len mod 64) mod 64)%nat in
  (bs ++ [128] ++ repeat 0 zeros ++ le_bytes 8 ((8 * Z.of_nat len) mod 2 ^ 64))%list.

Definition digest_state (s : string) : state :=
  let bs := pad (bytes_of s) in
  let ws := le_words (List.length bs) bs in
  fold_left block (blocks (List.length ws) ws) init.

Definition hex_digit (n : Z) : ascii :=
  nth (Z.to_nat (n mod 16))
    (list_ascii_of_string "0123456789abcdef") "0"%char.

Definition hex_byte (b : Z) : string :=
  String (hex_digit (b / 16)) (String (hex_digit b) EmptyString).

Definition hex_word (w : Z) : string :=
  match le_bytes 4 w with
  | [b0; b1; b2; b3] => hex_byte b0 ++ hex_byte b1 ++ hex_byte b2 ++ hex_byte b3
  | _ => EmptyString
  end.

(** [hashlib.md5(data).hexdigest()] *)
Definition hexdigest (s : string) : string :=
  let '(a, b, c, d) := digest_state s in
  hex_word a ++ hex_word b ++ hex_word c ++ hex_word d.

End MD5.

(** ** The world the handler acts on *)

(** A call to the messaging platform. *)
Inductive call : Type :=
| Reply (text : string)                       (* [message.reply] *)
| EditText (text : string)                    (* [progress_msg.edit_text] *)
| SendChatAction (chat_id : Z) (action : string)
| SendDocument (chat_id : Z) (document caption : string)
    (reply_to_message_id : Z).

(** One invocation of the progress callback, as the download loop saw it:
    the clock reading, the byte count, the declared total and the percent
    handed over. *)
Record report : Type := {
  at_time : Q;
  bytes_so_far : Z;
  of_total : Z;
  shown : Z
}.

Record world : Type := {
  fs : gmap string string;           (* local files: path to content *)
  chat : list (call * option outside_exn);   (* platform calls so far, with outcome *)
  reports : list report              (* ghost: written, never read *)
}.

(** One chunk of [resp.content.iter_chunked(CHUNK_SIZE)], with the reading
    [asyncio.get_event_loop().time()] gives once it is written. *)
Record chunk : Type := {
  data : string;
  arrival : Q
}.

Record response : Type := {
  status : Z;
  content_length : option N;    (* [resp.content_length] *)
  body : list chunk;
  body_error : option outside_exn       (* the stream breaks after the last chunk *)
}.

(** What the outside decides: the answer to [session.get(url)], and whether
    the platform accepts its [n]th call. *)
Record env : Type := {
  http_get : string -> outside_exn + response;
  platform : nat -> call -> option outside_exn
}.

(** ** State and exceptions *)

Definition M (A : Type) : Type := world -> result A * world.

Definition ret {A} (a : A) : M A := fun w => (Ok a, w).

Definition raise {A} (e : exn) : M A := fun w => (Raise e, w).

Definition lift {A} (r : result A) : M A := fun w => (r, w).

Definition bind {A B} (m : M A) (k : A -> M B) : M B :=
  fun w =>
    match m w with
    | (Ok a, w') => k a w'
    | (Raise e, w') => (Raise e, w')
    end.

(** [try: m] with the outcome handed to the code that follows. *)
Definition attempt {A} (m : M A) : M (result A) :=
  fun w => let (r, w') := m w in (Ok r, w').

(** [try: m except Exception as e: h e]; a handler re-raises what its
    [except] clauses do not name. *)
Definition try_except {A} (m : M A) (h : exn -> M A) : M A :=
  fun w =>
    match m w with
    | (Ok a, w') => (Ok a, w')
    | (Raise e, w') => h e w'
    end.

(** [try: m finally: f] *)
Definition try_finally {A} (m : M A) (f : M unit) : M A :=
  fun w =>
    let (r, w1) := m w in
    match f w1 with
    | (Ok _, w2) => (r, w2)
    | (Raise e, w2) => (Raise e, w2)
    end.

Declare Scope bot_scope.
Delimit Scope bot_scope with bot.
Notation "x <- m ;; k" := (bind m (fun x => k))
  (at level 100, m at next level, right associativity) : bot_scope.
Notation "m ;; k" := (bind m (fun _ => k))
  (at level 100, right associativity) : bot_scope.

(** [x or d] on an optional string and on an optional integer. *)
Definition or_str (x : option string) (d : string) : string :=
  match x with
  | Some (String _ _ as s) => s
  | _ => d
  end.

Definition or_int (x : option N) (d : Z) : Z :=
  match x with
  | Some n => if (Z.of_N n =? 0)%Z then d else Z.of_N n
  | None => d
  end.

(** [os.path.join(a, b)] on POSIX. *)
Definition path_join (a b : string) : string :=
  if Str.startswith "/" b then b
  else if String.eqb a "" || Str.endswith "/" a then a ++ b
  else a ++ "/" ++ b.

Definition TMP_DIR : string := "/tmp".

Record message : Type := {
  text : string;
  chat_id : Z;
  message_id : Z
}.

(** The state of the download loop (lines 52-54). *)
Record progress : Type := {
  downloaded : Z;
  last_update : Q;
  last_percent : Z
}.

Section Bot.
Local Open Scope bot_scope.
Local Open Scope Z_scope.

(** [mimetypes.guess_type(url)[0]] and [mimetypes.guess_extension(type)]:
    the tables of the standard library, taken as given. *)
Variable guess_type : string -> option string.
Variable guess_extension : string -> option string.

Variable E : env.

(** *** Primitive effects *)

Definition tg (c : call) : M unit :=
  fun w =>
    let r := platform E (List.length (chat w)) c in
    let w' := {| fs := fs w; chat := chat w ++ [(c, r)]; reports := reports w |} in
    match r with
    | None => (Ok tt, w')
    | Some e => (Raise (Outside e), w')
    end.

Definition session_get (url : string) : M response :=
  match http_get E url with
  | inl e => raise (Outside e)
  | inr resp => ret resp
  end.

(** [aio_open(path, "wb")]: create or truncate. *)
Definition aio_open_wb (path : string) : M unit :=
  fun w =>
    (Ok tt, {| fs := <[path := ""]> (fs w); chat := chat w; reports := reports w |}).

(** [f.write(chunk)] on the file opened at [path]. *)
Definition f_write (path chunk : string) : M unit :=
  fun w =>
    (Ok tt, {| fs := alter (fun c => c ++ chunk) path (fs w);
               chat := chat w; reports := reports w |}).

(** [os.remove(path)] *)
Definition os_remove (path : string) : M unit :=
  fun w =>
    match fs w !! path with
    | Some _ =>
        (Ok tt, {| fs := delete path (fs w); chat := chat w; reports := reports w |})
    | None => (Raise (OSError "[Errno 2] No such file or directory"), w)
    end.

Definition note (r : report) : M unit :=
  fun w => (Ok tt, {| fs := fs w; chat := chat w; reports := reports w ++ [r] |}).

(** *** Streaming downloader (lines 46-65) *)

(** The body of [async for chunk in ...], over the chunks still to come. *)
Fixpoint stream (progress_cb : option (Z -> M unit)) (total : Z)
    (dest_path : string) (broken : option outside_exn) (chunks : list chunk)
    (st : progress) : M unit :=
  match chunks with
  | [] =>
      match broken with
      | Some e => raise (Outside e)
      | None => ret tt
      end
  | c :: rest =>
      f_write dest_path (data c) ;;
      let downloaded' := downloaded st + Z.of_nat (String.length (data c)) in
      let quiet :=
        stream progress_cb total dest_path broken rest
          {| downloaded := downloaded';
             last_update := last_update st;
             last_percent := last_percent st |} in
      match progress_cb with
      | Some cb =>
          if total =? 0 then quiet
          else
            let now := arrival c in
            x <- lift (Float.true_divide (downloaded' * 100) total) ;;
            let percent := Float.to_int x in
            if Qle_bool 1 (now - last_update st)
               || negb (percent =? last_percent st)
            then
              note {| at_time := now; bytes_so_far := downloaded';
                      of_total := total; shown := percent |} ;;
              cb percent ;;
              stream progress_cb total dest_path broken rest
                {| downloaded := downloaded';
                   last_update := now;
                   last_percent := percent |}
            else quiet
      | None => quiet
      end
  end.

Definition download_file (url dest_path : string)
    (progress_cb : option (Z -> M unit)) : M unit :=
  resp <- session_get url ;;
  if negb (status resp =? 200) then
    raise (DownloadError ("HTTP " ++ Str.of_Z (status resp)))
  else
    let total := or_int (content_length resp) 0 in
    aio_open_wb dest_path ;;
    stream progress_cb total dest_path (body_error resp) (body resp)
      {| downloaded := 0; last_update := 0%Q; last_percent := 0 |}.

(** *** Progress reporter (lines 94-98) *)

Definition report_progress (percent : Z) : M unit :=
  try_except
    (tg (EditText ("📥 Downloading… " ++ Str.of_Z percent ++ "%")))
    (fun e =>
       match e with
       | Outside (TelegramRetryAfter _) => ret tt
       | _ => raise e
       end).

(** *** Message handler (lines 74-130) *)

(** Lines 76-80. *)
Definition link_of (m : message) : string := normalize (Str.strip (text m)).

(** Lines 86-90. *)
Definition file_path_of (url : string) : string :=
  let safe_name := Str.take 12 (MD5.hexdigest url) in
  let ext :=
    or_str (guess_extension (or_str (guess_type url) "application/octet-stream"))
      ".bin" in
  path_join TMP_DIR (safe_name ++ ext).

Definition caption_of (url : string) : string :=
  "✅ <b>Downloaded via:</b> <a href='" ++ url ++ "'>link</a>".

(** Lines 110-130: the upload, its handlers and the cleanup. *)
Definition upload (m : message) (url file_path : string) : M unit :=
  try_finally
    (try_except
       (tg (SendChatAction (chat_id m) "upload_document") ;;
        tg (SendDocument (chat_id m) file_path (caption_of url) (message_id m)))
       (fun e =>
          match e with
          | Outside (TelegramBadRequest error_msg) =>
              if Str.contains "invalid file HTTP URL" error_msg then
                tg (EditText "❌ Invalid file URL. The link may not point to a valid file.")
              else tg (EditText ("❌ Telegram error: " ++ error_msg))
          | _ => tg (EditText ("❌ Upload failed: " ++ exn_str e))
          end))
    (try_except (os_remove file_path)
       (fun e =>
          match e with
          | OSError _ => ret tt
          | _ => raise e
          end)).

(** Lines 100-130: the download, its handlers and the upload. *)
Definition transfer (m : message) (url file_path : string) : M unit :=
  r <- attempt (download_file url file_path (Some report_progress)) ;;
  match r with
  | Raise (DownloadError e) => tg (EditText ("❌ Download failed: " ++ e))
  | Raise e => tg (EditText ("❌ Unexpected error: " ++ exn_str e))
  | Ok _ =>
      tg (EditText "📤 Uploading…") ;;
      upload m url file_path
  end.

Definition handle_link (m : message) : M unit :=
  let url := link_of m in
  if String.eqb url "" || negb (Str.startswith "http" url) then
    tg (Reply "❌ Invalid link format. Please send a valid HTTP/HTTPS link.")
  else
    let file_path := file_path_of url in
    tg (Reply "📥 Starting download…") ;;
    transfer m url file_path.

End Bot.

(** ** Vocabulary of the specification *)

(** [url] is [https://drive.google.com/file/d/<ID>/...] with a non-empty
    [ID] of letters, digits, [_] and [-]. *)
Definition share_link (url file_id rest : string) : Prop :=
  url = "https://drive.google.com/file/d/" ++ file_id ++ "/" ++ rest
  /\ file_id <> ""
  /\ Str.all Re.id_char file_id = true.

Definition is_share_link (url : string) : Prop :=
  exists file_id rest, share_link url file_id rest.

(** The calls the handler may make for the message [m] once the download
    has started, its link [url] and its file path being fixed. *)
Definition allowed (m : message) (url file_path : string) (c : call) : Prop :=
  match c with
  | Reply _ => False
  | EditText _ => True
  | SendChatAction cid action => cid = chat_id m /\ action = "upload_document"
  | SendDocument cid document caption reply_to =>
      cid = chat_id m /\ document = file_path /\ caption = caption_of url
      /\ reply_to = message_id m
  end.

Definition is_reply (c : call) : Prop :=
  match c with Reply _ => True | _ => False end.

(** Reports in the order they were made: the percent never goes down, and
    a report follows the previous one only after a change of the percent or
    one second on the loop clock. [lu] and [lp] are the loop's
    [last_update] and [last_percent] before the first of them. *)
Fixpoint paced (lu : Q) (lp : Z) (l : list report) : Prop :=
  match l with
  | [] => True
  | r :: l' =>
      (lp <= shown r)%Z
      /\ ((1 <= at_time r - lu)%Q \/ shown r <> lp)
      /\ paced (at_time r) (shown r) l'
  end.

(** A callback that never raises the bot's own [DownloadError]. *)
Definition raises_no_download_error (cb : option (Z -> M unit)) : Prop :=
  forall f, cb = Some f ->
  forall p w msg, fst (f p w) <> Raise (DownloadError msg).

(** The bytes of a body, in order. *)
Definition joined (chunks : list chunk) : string :=
  fold_right (fun c s => data c ++ s) "" chunks.

(** What a computation started in [w] added to the ghost log and to the
    platform log. *)
Definition made_by {A} (m : M A) (w : world) : list report :=
  skipn (List.length (reports w)) (reports (snd (m w))).

Definition said_by {A} (m : M A) (w : world) : list (call * option outside_exn) :=
  skipn (List.length (chat w)) (chat (snd (m w))).


(** [int(downloaded * 100 / total)] when the division raises nothing. *)
Definition pct (downloaded total : Z) : Z :=
  Float.to_int (Float.nearest (downloaded * 100) total).

(** What the loop knows about a report it made while [total] was the
    declared size and [d] bytes had been counted before. *)
Definition report_ok (total d : Z) (r : report) : Prop :=
  of_total r = total /\ (d <= bytes_so_far r)%Z
  /\ shown r = pct (bytes_so_far r) total.

(** The status text of a report. *)
Definition edit_of (r : report) : call :=
  EditText ("📥 Downloading… " ++ Str.of_Z (shown r) ++ "%").


(** ** Relations between the world before and after

    [preserves R m]: running [m] takes every world to one related to it. *)

Definition preserves {A} (R : relation world) (m : M A) : Prop :=
  forall w, R w (snd (m w)).

(** The platform log only grows, by calls that satisfy [P]. *)
Definition chat_grows (P : call -> Prop) : relation world :=
  fun w w' =>
    exists l, chat w' = (chat w ++ l)%list /\ Forall (fun x => P (fst x)) l.

(** No file other than [p] changes. *)
Definition fs_frame (p : string) : relation world :=
  fun w w' => forall q, q <> p -> fs w' !! q = fs w !! q.

(** The ghost log does not change. *)
Definition same_reports : relation world :=
  fun w w' => reports w' = reports w.

(** ** Sample surroundings, for the examples *)

Definition empty_world : world := {| fs := ∅; chat := []; reports := [] |}.

(** Two lines of the [mimetypes] tables. *)
Definition sample_guess_type (url : string) : option string :=
  if Str.endswith ".bin" url then Some "application/octet-stream"
  else if Str.endswith ".pdf" url then Some "application/pdf"
  else None.

Definition sample_guess_extension (type : string) : option string :=
  if String.eqb type "application/octet-stream" then Some ".bin"
  else if String.eqb type "application/pdf" then Some ".pdf"
  else None.


(** A platform that accepts every call. *)
Definition willing : nat -> call -> option outside_exn := fun _ _ => None.

(** A source that answers every URL with [resp]. *)
Definition serving (resp : response) : string -> outside_exn + response :=
  fun _ => inr resp.

(** [n] zero bytes. *)
Definition zeros (n : nat) : string :=
  Nat.iter n (String "000"%char) EmptyString.

Definition at_seconds (l : list (string * Z)) : list chunk :=
  map (fun x => {| data := fst x; arrival := inject_Z (snd x) |}) l.

(** ** Further vocabulary *)

(** The number of bytes of a body. *)
Definition body_size (chunks : list chunk) : Z :=
  fold_right (fun c n => (Z.of_nat (String.length (data c)) + n)%Z) 0%Z chunks.

Definition is_edit (c : call) : Prop :=
  match c with EditText _ => True | _ => False end.

(** The status text for a failed download (lines 102-107) and for a failed
    upload (lines 118-125). *)
Definition download_failure_text (e : exn) : string :=
  match e with
  | DownloadError msg => "❌ Download failed: " ++ msg
  | _ => "❌ Unexpected error: " ++ exn_str e
  end.

Definition upload_failure_text (e : outside_exn) : string :=
  match e with
  | TelegramBadRequest msg =>
      if Str.contains "invalid file HTTP URL" msg then
        "❌ Invalid file URL. The link may not point to a valid file."
      else "❌ Telegram error: " ++ msg
  | _ => "❌ Upload failed: " ++ exn_str (Outside e)
  end.


(** ** Startup and shutdown (lines 139-156) *)

Module Lifecycle.

(** [TelegramRetryAfter] with its [retry_after], or any other exception. *)
Inductive error : Type :=
| RetryAfter (retry_after : Z)
| Other (msg : string).

Inductive api_call : Type :=
| GetWebhookInfo
| SetWebhook (url : string)
| DeleteWebhook
| Sleep (seconds : Z).           (* [asyncio.sleep] *)

(** What the platform does: the URL [get_webhook_info] reports, and whether it
    rejects its [n]th call. *)
Record api : Type := {
  webhook_url : string;
  rejects : nat -> api_call -> option error
}.

Definition log : Type := list (api_call * option error).

Definition L (A : Type) : Type := log -> (error + A) * log.

Definition WEBHOOK_PATH (BOT_TOKEN : string) : string := "/webhook/" ++ BOT_TOKEN.

Definition FULL_WEBHOOK_URL (WEBHOOK_URL BOT_TOKEN : string) : string :=
  WEBHOOK_URL ++ WEBHOOK_PATH BOT_TOKEN.

Section Bot.
Variable P : api.

Definition call (c : api_call) : L unit :=
  fun l =>
    let r := rejects P (List.length l) c in
    (match r with Some e => inl e | None => inr tt end, (l ++ [(c, r)])%list).

Definition sleep (seconds : Z) : L unit :=
  fun l => (inr tt, (l ++ [(Sleep seconds, None)])%list).

(** [(await bot.get_webhook_info()).url] *)
Definition get_webhook_url : L string :=
  fun l =>
    match call GetWebhookInfo l with
    | (inr _, l') => (inr (webhook_url P), l')
    | (inl e, l') => (inl e, l')
    end.

Definition on_startup (full_url : string) : L unit :=
  fun l =>
    match get_webhook_url l with
    | (inl e, l1) => (inl e, l1)
    | (inr current_url, l1) =>
        if negb (String.eqb current_url full_url) then
          match call (SetWebhook full_url) l1 with
          | (inl (RetryAfter retry_after), l2) =>
              let (_, l3) := sleep retry_after l2 in
              call (SetWebhook full_url) l3
          | other => other
          end
        else (inr tt, l1)
    end.

Definition on_shutdown : L unit := call DeleteWebhook.

End Bot.

Definition is_set_webhook (c : api_call) : bool :=
  match c with SetWebhook _ => true | _ => false end.

End Lifecycle.

(** * Properties *)

(** ** Strings *)

#[local] Arguments String.append !s1 s2 : simpl nomatch.

Lemma strip_prefix_app (p s : string) : Str.strip_prefix p (p ++ s) = Some s.
Proof.
  induction p as [|a p IH]; simpl; [reflexivity|].
  now rewrite Ascii.eqb_refl.
Qed.

Lemma strip_prefix_inv (p s r : string) :
  Str.strip_prefix p s = Some r -> s = p ++ r.
Proof.
  revert s; induction p as [|a p IH]; intros s; simpl.
  - now intros [= ->].
  - destruct s as [|b s]; [discriminate|].
    destruct (Ascii.eqb_spec a b) as [->|]; [|discriminate].
    intros H; simpl; f_equal; auto.
Qed.

Lemma startswith_iff (p s : string) :
  Str.startswith p s = true <-> exists r, s = p ++ r.
Proof.
  unfold Str.startswith; split.
  - destruct (Str.strip_prefix p s) eqn:H; [|discriminate].
    intros _; eexists; eauto using strip_prefix_inv.
  - intros [r ->]; now rewrite strip_prefix_app.
Qed.

Lemma string_app_assoc (a b c : string) : (a ++ b) ++ c = a ++ (b ++ c).
Proof. induction a as [|x a IH]; simpl; congruence. Qed.

Lemma string_app_nil_r (a : string) : a ++ "" = a.
Proof. induction a as [|x a IH]; simpl; congruence. Qed.

Lemma string_length_app (a b : string) :
  String.length (a ++ b) = (String.length a + String.length b)%nat.
Proof. induction a as [|c a IH]; simpl; congruence. Qed.

Lemma take_app (a b : string) : Str.take (String.length a) (a ++ b) = a.
Proof. induction a as [|c a IH]; simpl; [now destruct b | congruence]. Qed.

Lemma consumed_app (a b : string) : Str.consumed (a ++ b) b = a.
Proof.
  unfold Str.consumed; rewrite string_length_app.
  replace (String.length a + String.length b - String.length b)%nat
    with (String.length a) by lia.
  apply take_app.
Qed.




(** ** The matcher *)

Section MatcherFacts.
Context {A : Type}.
Implicit Types (k : @Re.cont A) (cls : ascii -> bool).

(** A repetition followed by something that cannot fail does not fail. *)
Lemma star_const cls s cap k v :
  (forall rest, k rest cap = Some v) -> Re.star cls s cap k = Some v.
Proof.
  intros Hk; induction s as [|c s IH]; simpl; [apply Hk|].
  destruct (cls c); [now rewrite IH | apply Hk].
Qed.

(** Greedy: past a run of class characters, when the rest is accepted
    there it is accepted by the repetition. *)
Lemma star_greedy cls pre rest cap k v :
  Str.all cls pre = true ->
  match rest with String c _ => cls c = false | EmptyString => True end ->
  k rest cap = Some v ->
  Re.star cls (pre ++ rest) cap k = Some v.
Proof.
  intros Hpre Hrest Hk; induction pre as [|c pre IH]; simpl in *.
  - destruct rest as [|c r]; simpl; [assumption|]. now rewrite Hrest.
  - apply andb_true_iff in Hpre as [-> Hpre]. now rewrite IH.
Qed.

(** Whatever a repetition accepts, it accepts after a run of class
    characters. *)
Lemma star_inv cls s cap k v :
  Re.star cls s cap k = Some v ->
  exists pre rest,
    s = pre ++ rest /\ Str.all cls pre = true /\ k rest cap = Some v.
Proof.
  induction s as [|c s IH]; simpl.
  - intros H; exists "", ""; auto.
  - destruct (cls c) eqn:Hc.
    + destruct (Re.star cls s cap k) eqn:Hs.
      * intros [= <-]. destruct (IH eq_refl) as (pre & rest & -> & Hp & Hk).
        exists (String c pre), rest; simpl; rewrite Hc; auto.
      * intros H; exists "", (String c s); auto.
    + intros H; exists "", (String c s); auto.
Qed.
End MatcherFacts.

(** The part of the pattern after the identifier's slash accepts anything
    and leaves the capture alone. *)
Lemma gdrive_tail_total (s : string) (cap : option string) :
  Re.run (Re.Cat (Re.Star Re.not_question)
            (Re.Opt (Re.Cat (Re.Lit "?") (Re.Star Re.dot))))
    s cap (fun _ cap' => Some cap') = Some cap.
Proof.
  cbn [Re.run]. apply star_const; intros rest.
  destruct (Str.strip_prefix "?" rest) as [r|]; [|reflexivity].
  now rewrite (star_const _ _ _ _ cap).
Qed.

(** What [GDRIVE_REGEX.match] computes, in one equation per outcome. *)
Lemma gdrive_match_share (file_id rest : string) :
  file_id <> "" -> Str.all Re.id_char file_id = true ->
  Re.match_ GDRIVE_REGEX
    ("https://drive.google.com/file/d/" ++ file_id ++ "/" ++ rest)
  = Some (Some file_id).
Proof.
  intros Hne Hall. unfold Re.match_, GDRIVE_REGEX.
  cbn [Re.run]. rewrite strip_prefix_app.
  destruct file_id as [|c id]; [congruence|].
  simpl in Hall; apply andb_true_iff in Hall as [Hc Hall].
  cbn [String.append]. rewrite Hc.
  apply star_greedy; [assumption|reflexivity|].
  cbn [String.append Str.strip_prefix]. rewrite Ascii.eqb_refl.
  change (String c (id ++ String "/" rest)) with (String c id ++ String "/" rest).
  rewrite consumed_app.
  pose proof (gdrive_tail_total rest (Some (String c id))) as Ht.
  cbn [Re.run] in Ht. exact Ht.
Qed.

Lemma gdrive_match_inv (url : string) (g : option string) :
  Re.match_ GDRIVE_REGEX url = Some g ->
  exists file_id rest, g = Some file_id /\ share_link url file_id rest.
Proof.
  unfold Re.match_, GDRIVE_REGEX. cbn [Re.run].
  destruct (Str.strip_prefix _ url) as [s|] eqn:Hp; [|discriminate].
  apply strip_prefix_inv in Hp; subst url.
  destruct s as [|c s]; [discriminate|].
  destruct (Re.id_char c) eqn:Hc; [|discriminate].
  intros (pre & rest & -> & Hall & Hk)%star_inv.
  destruct (Str.strip_prefix "/" rest) as [r|] eqn:Hr; [|discriminate].
  apply strip_prefix_inv in Hr; subst rest.
  change (String c (pre ++ "/" ++ r)) with (String c pre ++ "/" ++ r) in Hk.
  rewrite consumed_app in Hk.
  pose proof (gdrive_tail_total r (Some (String c pre))) as Ht.
  cbn [Re.run] in Ht. rewrite Ht in Hk. injection Hk as <-.
  exists (String c pre), r; repeat split; simpl; [discriminate|].
  now rewrite Hc.
Qed.

(** C2. A URL of the form https://drive.google.com/file/d/<ID>/..., with a
    non-empty ID of letters, digits, underscore and hyphen, is rewritten to
    https://drive.google.com/uc?export=download&id=<ID>; every other URL is
    returned unchanged; the share link of scenario A gives the stated URL. *)
Theorem normalize_share_link_or_identity :
  (forall url file_id rest,
      share_link url file_id rest ->
      normalize url = "https://drive.google.com/uc?export=download&id=" ++ file_id)
  /\ (forall url, ~ is_share_link url -> normalize url = url)
  /\ normalize "https://drive.google.com/file/d/ABC123/view?usp=sharing"
     = "https://drive.google.com/uc?export=download&id=ABC123".
Proof.
  split; [|split].
  - intros url file_id rest (-> & Hne & Hall). unfold normalize.
    now rewrite gdrive_match_share.
  - intros url Hno. unfold normalize.
    destruct (Re.match_ GDRIVE_REGEX url) as [g|] eqn:Hm; [|reflexivity].
    destruct (gdrive_match_inv _ _ Hm) as (file_id & rest & _ & Hs).
    exfalso; apply Hno; now exists file_id, rest.
  - reflexivity.
Qed.

Lemma normalize_share_link_or_identity_witness :
  normalize "https://drive.google.com/file/d/a-B_9/edit"
    = "https://drive.google.com/uc?export=download&id=a-B_9"
  /\ normalize "https://drive.google.com/file/d/ABC123"
     = "https://drive.google.com/file/d/ABC123".
Proof.
  split.
  - apply (proj1 normalize_share_link_or_identity _ "a-B_9" "edit").
    repeat split; [discriminate].
  - apply (proj1 (proj2 normalize_share_link_or_identity)).
    intros (file_id & rest & Hurl & _ & Hall).
    injection Hurl as Hurl. clear -Hurl Hall.
    repeat (destruct file_id as [|? file_id]; [discriminate|];
            injection Hurl as <- Hurl).
    destruct file_id; discriminate.
Defined.

(** ** Division of integers in floating point *)

Section FloatFacts.
Local Open Scope Z_scope.

Lemma round_half_even_bounds (a d : Z) :
  a / d <= Float.round_half_even a d <= a / d + 1.
Proof. unfold Float.round_half_even; destruct (_ || _); lia. Qed.

Lemma round_half_even_mono (a1 a2 d : Z) :
  0 < d -> a1 <= a2 ->
  Float.round_half_even a1 d <= Float.round_half_even a2 d.
Proof.
  intros Hd Ha. pose proof (Z.div_le_mono a1 a2 d Hd Ha) as Hq.
  destruct (Z.eq_dec (a1 / d) (a2 / d)) as [Heq|Hne].
  - assert (a1 mod d <= a2 mod d) as Hr
      by (rewrite !Z.mod_eq by lia; rewrite Heq; lia).
    unfold Float.round_half_even; rewrite Heq.
    destruct (Z.ltb_spec d (2 * (a1 mod d))),
      (Z.ltb_spec d (2 * (a2 mod d))),
      (Z.eqb_spec d (2 * (a1 mod d))),
      (Z.eqb_spec d (2 * (a2 mod d))),
      (Z.odd (a2 / d)); simpl; lia.
  - pose proof (round_half_even_bounds a1 d).
    pose proof (round_half_even_bounds a2 d). lia.
Qed.

(** The exponent leaves at most 53 bits, and exactly 53 above the
    smallest exponent. *)
Lemma exponent_spec (q : Z) :
  0 <= q ->
  let t := Z.max 0 (Z.log2 q - 52) in
  q / 2 ^ t < 2 ^ 53 /\ (0 < t -> 2 ^ 52 <= q / 2 ^ t).
Proof.
  intros Hq t.
  assert (0 <= t) as Ht by (unfold t; lia).
  assert (0 < 2 ^ t) as Hp by (apply Z.pow_pos_nonneg; lia).
  destruct (Z.eq_dec q 0) as [->|Hne].
  { rewrite Z.div_0_l by lia. split; [reflexivity|].
    unfold t; simpl; lia. }
  destruct (Z.log2_spec q ltac:(lia)) as [Hlo Hhi].
  pose proof (Z.log2_nonneg q) as Hl.
  split.
  - apply Z.div_lt_upper_bound; [assumption|].
    rewrite <- Z.pow_add_r by lia.
    eapply Z.lt_le_trans; [exact Hhi|].
    apply Z.pow_le_mono_r; unfold t; lia.
  - intros Hpos. apply Z.div_le_lower_bound; [assumption|].
    rewrite <- Z.pow_add_r by lia.
    replace (t + 52) with (Z.log2 q) by (unfold t in *; lia).
    exact Hlo.
Qed.

Lemma nearest_unfold (n b : Z) :
  0 < b ->
  let q := n * Float.scale / b in
  let t := Z.max 0 (Z.log2 q - 52) in
  Float.nearest n b = Float.round_half_even (n * Float.scale) (b * 2 ^ t) * 2 ^ t
  /\ n * Float.scale / (b * 2 ^ t) = q / 2 ^ t
  /\ 0 <= t /\ 0 < 2 ^ t.
Proof.
  intros Hb q t.
  assert (0 <= t) as Ht by (unfold t; lia).
  assert (0 < 2 ^ t) as Hp by (apply Z.pow_pos_nonneg; lia).
  repeat split; try assumption.
  unfold q. now rewrite Z.div_div by lia.
Qed.

Lemma scale_pos : 0 < Float.scale.
Proof. reflexivity. Qed.

Lemma nearest_nonneg (n b : Z) : 0 <= n -> 0 < b -> 0 <= Float.nearest n b.
Proof.
  intros Hn Hb. destruct (nearest_unfold n b Hb) as (-> & _ & Ht & Hp).
  pose proof scale_pos.
  apply Z.mul_nonneg_nonneg; [|lia].
  eapply Z.le_trans; [|apply round_half_even_bounds].
  apply Z.div_pos; nia.
Qed.

(** Rounding to nearest is monotone in the numerator. *)
Lemma nearest_mono (n1 n2 b : Z) :
  0 <= n1 <= n2 -> 0 < b -> Float.nearest n1 b <= Float.nearest n2 b.
Proof.
  intros Hn Hb. pose proof scale_pos as HS.
  destruct (nearest_unfold n1 b Hb) as (-> & Hq1 & Ht1 & Hp1).
  destruct (nearest_unfold n2 b Hb) as (-> & Hq2 & Ht2 & Hp2).
  set (q1 := n1 * Float.scale / b) in *.
  set (q2 := n2 * Float.scale / b) in *.
  assert (0 <= q1) as H0 by (apply Z.div_pos; nia).
  assert (q1 <= q2) as Hq by (apply Z.div_le_mono; nia).
  destruct (exponent_spec q1 H0) as [Hu1 _].
  destruct (exponent_spec q2 ltac:(lia)) as [_ Hl2].
  set (t1 := Z.max 0 (Z.log2 q1 - 52)) in *.
  set (t2 := Z.max 0 (Z.log2 q2 - 52)) in *.
  assert (t1 <= t2) as Ht
    by (pose proof (Z.log2_le_mono q1 q2 Hq); unfold t1, t2; lia).
  destruct (Z.eq_dec t1 t2) as [Heq|Hne].
  - rewrite Heq. apply Z.mul_le_mono_nonneg_r; [lia|].
    apply round_half_even_mono; nia.
  - pose proof (round_half_even_bounds (n1 * Float.scale) (b * 2 ^ t1)) as B1.
    pose proof (round_half_even_bounds (n2 * Float.scale) (b * 2 ^ t2)) as B2.
    rewrite Hq1 in B1. rewrite Hq2 in B2.
    specialize (Hl2 ltac:(lia)).
    assert (2 ^ 53 * 2 ^ t1 <= 2 ^ 52 * 2 ^ t2) as Hpow.
    { rewrite <- !Z.pow_add_r by lia. apply Z.pow_le_mono_r; lia. }
    nia.
Qed.

Lemma to_int_div (x : Z) : 0 <= x -> Float.to_int x = x / Float.scale.
Proof. intros; unfold Float.to_int. apply Z.quot_div_nonneg; [lia|reflexivity]. Qed.

Lemma to_int_mono (x y : Z) : 0 <= x <= y -> Float.to_int x <= Float.to_int y.
Proof.
  intros H. rewrite !to_int_div by lia. apply Z.div_le_mono; [reflexivity|lia].
Qed.

Lemma nearest_zero (b : Z) : 0 < b -> Float.nearest 0 b = 0.
Proof.
  intros Hb. unfold Float.nearest, Float.round_half_even.
  change (0 * Float.scale) with 0. rewrite Z.div_0_l by lia.
  change (Z.max 0 (Z.log2 0 - 52)) with 0.
  rewrite Z.div_0_l, Z.mod_0_l by lia.
  destruct (Z.ltb_spec (b * 2 ^ 0) (2 * 0)); [lia|].
  destruct (Z.eqb_spec (b * 2 ^ 0) (2 * 0)); [lia|]. reflexivity.
Qed.

(** [a / b] on non-negative integers, when it raises nothing. *)
Lemma true_divide_ok (a b x : Z) :
  0 <= a -> 0 < b -> Float.true_divide a b = Ok x -> x = Float.nearest a b.
Proof.
  intros Ha Hb. unfold Float.true_divide.
  destruct (Z.eqb_spec b 0); [lia|].
  rewrite (Z.abs_eq a), (Z.abs_eq b) by lia.
  destruct (Float.huge <=? _); [discriminate|]. intros [= <-].
  destruct (Z.eq_dec a 0) as [->|]; [now rewrite nearest_zero|].
  rewrite (Z.sgn_pos a), (Z.sgn_pos b) by lia. lia.
Qed.


Lemma nearest_hundred (b : Z) :
  0 < b -> Float.nearest (b * 100) b = 100 * Float.scale.
Proof.
  intros Hb. unfold Float.nearest.
  replace (b * 100 * Float.scale / b) with (100 * Float.scale)
    by (replace (b * 100 * Float.scale) with (100 * Float.scale * b) by lia;
        now rewrite Z.div_mul by lia).
  change (Z.max 0 (Z.log2 (100 * Float.scale) - 52)) with 1028.
  unfold Float.round_half_even.
  replace (b * 100 * Float.scale) with (100 * 2 ^ 46 * (b * 2 ^ 1028))
    by (change Float.scale with (2 ^ 46 * 2 ^ 1028); lia).
  assert (b * 2 ^ 1028 <> 0) as Hd by lia.
  rewrite Z.div_mul, Z.mod_mul by assumption.
  destruct (Z.ltb_spec (b * 2 ^ 1028) (2 * 0)); [lia|].
  destruct (Z.eqb_spec (b * 2 ^ 1028) (2 * 0)); [lia|].
  simpl "||". change Float.scale with (2 ^ 46 * 2 ^ 1028). lia.
Qed.

End FloatFacts.

(** ** What a computation leaves unchanged

    A relation between the world before and the world after that is
    reflexive and transitive is kept by every combinator of the monad as
    soon as the steps keep it. *)

Section Combinators.
Context (R : relation world) `{!PreOrder R}.

Lemma preserves_ret {A} (a : A) : preserves R (ret a).
Proof. intros w; reflexivity. Qed.

Lemma preserves_raise {A} (e : exn) : preserves R (@raise A e).
Proof. intros w; reflexivity. Qed.

Lemma preserves_lift {A} (r : result A) : preserves R (lift r).
Proof. intros w; reflexivity. Qed.

Lemma preserves_bind {A B} (m : M A) (k : A -> M B) :
  preserves R m -> (forall a, preserves R (k a)) -> preserves R (bind m k).
Proof.
  intros Hm Hk w. unfold bind. specialize (Hm w).
  destruct (m w) as [[a|e] w1]; simpl in *; [|assumption].
  etransitivity; [exact Hm | apply Hk].
Qed.

Lemma preserves_attempt {A} (m : M A) :
  preserves R m -> preserves R (attempt m).
Proof.
  intros Hm w. unfold attempt. specialize (Hm w).
  now destruct (m w) as [r w1].
Qed.

Lemma preserves_try_except {A} (m : M A) (h : exn -> M A) :
  preserves R m -> (forall e, preserves R (h e)) ->
  preserves R (try_except m h).
Proof.
  intros Hm Hh w. unfold try_except. specialize (Hm w).
  destruct (m w) as [[a|e] w1]; simpl in *; [assumption|].
  etransitivity; [exact Hm | apply Hh].
Qed.

Lemma preserves_try_finally {A} (m : M A) (f : M unit) :
  preserves R m -> preserves R f -> preserves R (try_finally m f).
Proof.
  intros Hm Hf w. unfold try_finally. specialize (Hm w).
  destruct (m w) as [r w1]; simpl in *. specialize (Hf w1).
  destruct (f w1) as [[[]|e] w2]; simpl in *; etransitivity; eauto.
Qed.
End Combinators.

Create HintDb frame.
#[local] Hint Resolve preserves_ret preserves_raise preserves_lift
  preserves_bind preserves_attempt preserves_try_except
  preserves_try_finally : frame.

Section Frame.
Context (R : relation world) `{!PreOrder R}.
Variable guess_type guess_extension : string -> option string.
Variable E : env.
Variable m : message.

Let url := link_of m.
Let file_path := file_path_of guess_type guess_extension url.

Hypothesis R_tg : forall c, allowed m url file_path c -> preserves R (tg E c).
Hypothesis R_reply : forall c, is_reply c -> preserves R (tg E c).
Hypothesis R_open : preserves R (aio_open_wb file_path).
Hypothesis R_write : forall c, preserves R (f_write file_path c).
Hypothesis R_remove : preserves R (os_remove file_path).
Hypothesis R_note : forall r, preserves R (note r).

Lemma report_progress_preserves (percent : Z) :
  preserves R (report_progress E percent).
Proof.
  unfold report_progress. apply preserves_try_except; [assumption| |].
  - now apply R_tg.
  - intros [| | | |[]]; auto with frame.
Qed.

Lemma stream_preserves (cb : option (Z -> M unit)) total broken chunks st :
  (forall f p, cb = Some f -> preserves R (f p)) ->
  preserves R (stream cb total file_path broken chunks st).
Proof.
  intros Hcb. revert st.
  induction chunks as [|c rest IH]; intros st; cbn [stream].
  - destruct broken; auto with frame.
  - apply preserves_bind; [assumption|apply R_write|]. intros _.
    destruct cb as [f|]; [|apply IH].
    destruct (total =? 0)%Z; [apply IH|].
    apply preserves_bind; [assumption|auto with frame|]. intros x.
    destruct (_ || _); [|apply IH].
    apply preserves_bind; [assumption|apply R_note|intros _].
    apply preserves_bind; [assumption|now apply (Hcb f)|intros _].
    apply IH.
Qed.

Lemma download_file_preserves :
  preserves R (download_file E url file_path (Some (report_progress E))).
Proof.
  unfold download_file, session_get.
  apply preserves_bind; [assumption| |intros resp].
  - destruct (http_get E url); auto with frame.
  - destruct (negb _); [auto with frame|].
    apply preserves_bind; [assumption|exact R_open|intros _].
    apply stream_preserves. intros f p [= <-].
    apply report_progress_preserves.
Qed.

Lemma upload_preserves : preserves R (upload E m url file_path).
Proof.
  unfold upload. apply preserves_try_finally; [assumption| |].
  - apply preserves_try_except; [assumption| |].
    + apply preserves_bind; [assumption| |intros _]; apply R_tg; simpl; auto.
    + intros [| | | |[]]; try (apply R_tg; exact I).
      destruct (Str.contains _ _); apply R_tg; exact I.
  - apply preserves_try_except; [assumption|exact R_remove|].
    intros []; auto with frame.
Qed.

Lemma transfer_preserves : preserves R (transfer E m url file_path).
Proof.
  unfold transfer.
  apply preserves_bind; [assumption| |intros r].
  - apply preserves_attempt, download_file_preserves.
  - destruct r as [[]|[]]; try (apply R_tg; exact I).
    apply preserves_bind; [assumption|now apply R_tg|intros _].
    apply upload_preserves.
Qed.

Lemma handle_link_preserves :
  preserves R (handle_link guess_type guess_extension E m).
Proof.
  unfold handle_link. fold url. fold file_path.
  destruct (_ || _); [now apply R_reply|].
  apply preserves_bind; [assumption|now apply R_reply|intros _].
  apply transfer_preserves.
Qed.
End Frame.

Lemma chat_grows_preorder P : PreOrder (chat_grows P).
Proof.
  split.
  - intros w; exists []; split; [now rewrite app_nil_r|constructor].
  - intros w1 w2 w3 (l1 & H1 & F1) (l2 & H2 & F2).
    exists (l1 ++ l2)%list; split.
    + now rewrite H2, H1, app_assoc.
    + apply Forall_app; auto.
Qed.

Lemma fs_frame_preorder p : PreOrder (fs_frame p).
Proof.
  split.
  - intros w q _; reflexivity.
  - intros w1 w2 w3 H1 H2 q Hq. now rewrite H2, H1.
Qed.

Lemma same_reports_preorder : PreOrder same_reports.
Proof. split; unfold same_reports; [now intros w|congruence]. Qed.

#[local] Existing Instances chat_grows_preorder fs_frame_preorder
  same_reports_preorder.

Lemma tg_chat (E : env) (c : call) (w : world) :
  chat (snd (tg E c w)) =
    (chat w ++ [(c, platform E (List.length (chat w)) c)])%list
  /\ fs (snd (tg E c w)) = fs w
  /\ reports (snd (tg E c w)) = reports w
  /\ fst (tg E c w) =
       match platform E (List.length (chat w)) c with
       | None => Ok tt
       | Some e => Raise (Outside e)
       end.
Proof. unfold tg. now destruct (platform E _ c). Qed.

Lemma tg_chat_grows (P : call -> Prop) E c :
  P c -> preserves (chat_grows P) (tg E c).
Proof.
  intros HP w. destruct (tg_chat E c w) as (H & _).
  exists [(c, platform E (List.length (chat w)) c)]; split; [assumption|].
  now constructor.
Qed.

Lemma quiet_chat_grows {A} (P : call -> Prop) (m : M A) :
  (forall w, chat (snd (m w)) = chat w) -> preserves (chat_grows P) m.
Proof. intros H w; exists []; rewrite H, app_nil_r; split; auto. Qed.

Lemma os_remove_chat path w : chat (snd (os_remove path w)) = chat w.
Proof. unfold os_remove. now destruct (fs w !! path). Qed.

Section HandlerFrames.
Variable guess_type guess_extension : string -> option string.
Variable E : env.
Variable m : message.

Let url := link_of m.
Let file_path := file_path_of guess_type guess_extension url.

(** Once the download has started the handler makes allowed calls only,
    and the log only grows. *)
Lemma transfer_chat :
  preserves (chat_grows (allowed m url file_path))
    (transfer E m url file_path).
Proof.
  apply (transfer_preserves _ guess_type guess_extension);
    try typeclasses eauto.
  - intros c Hc. now apply tg_chat_grows.
  - now apply quiet_chat_grows.
  - intros c. now apply quiet_chat_grows.
  - apply quiet_chat_grows, os_remove_chat.
  - intros r. now apply quiet_chat_grows.
Qed.

Lemma handle_link_chat :
  preserves
    (chat_grows (fun c => is_reply c \/ allowed m url file_path c))
    (handle_link guess_type guess_extension E m).
Proof.
  apply handle_link_preserves; try typeclasses eauto.
  - intros c Hc. apply tg_chat_grows; now right.
  - intros c Hc. apply tg_chat_grows; now left.
  - now apply quiet_chat_grows.
  - intros c. now apply quiet_chat_grows.
  - apply quiet_chat_grows, os_remove_chat.
  - intros r. now apply quiet_chat_grows.
Qed.

End HandlerFrames.

Lemma report_progress_reports E p :
  preserves same_reports (report_progress E p).
Proof.
  unfold report_progress. apply preserves_try_except; [typeclasses eauto| |].
  - intros w. unfold same_reports. apply tg_chat.
  - intros [| | | |[]]; auto with frame typeclass_instances.
Qed.

(** ** The link a message carries *)

Lemma strip_http (rest : string) :
  Str.strip ("http" ++ rest) = "http" ++ Str.rstrip rest.
Proof. reflexivity. Qed.

Lemma normalize_http (url : string) :
  Str.startswith "http" url = true -> Str.startswith "http" (normalize url) = true.
Proof.
  intros H. unfold normalize.
  destruct (Re.match_ GDRIVE_REGEX url) as [[id|]|]; auto.
Qed.

Lemma link_of_http (m : message) :
  Str.startswith "http" (text m) = true ->
  Str.startswith "http" (link_of m) = true.
Proof.
  intros [rest Hrest]%startswith_iff. unfold link_of.
  rewrite Hrest, strip_http. apply normalize_http. reflexivity.
Qed.

Lemma handle_link_http guess_type guess_extension E m :
  Str.startswith "http" (text m) = true ->
  handle_link guess_type guess_extension E m =
    bind (tg E (Reply "📥 Starting download…"))
      (fun _ => transfer E m (link_of m)
                  (file_path_of guess_type guess_extension (link_of m))).
Proof.
  intros H%link_of_http. unfold handle_link. rewrite H.
  destruct (link_of m); [discriminate|reflexivity].
Qed.



(** ** Progress reporter *)

Lemma report_progress_chat E percent w :
  let edit := EditText ("📥 Downloading… " ++ Str.of_Z percent ++ "%") in
  chat (snd (report_progress E percent w))
  = (chat w ++ [(edit, platform E (List.length (chat w)) edit)])%list.
Proof.
  intros edit. destruct (tg_chat E edit w) as (Hc & _).
  unfold report_progress, try_except. fold edit. clearbody edit.
  destruct (tg E edit w) as [[[]|e] w1]; simpl in *; [assumption|].
  now destruct e as [| | | |[]].
Qed.




(** ** Streaming downloader *)

(** One turn of the loop, with the monad unfolded. *)
Lemma stream_cons cb total dest broken c rest st w :
  stream cb total dest broken (c :: rest) st w =
    let d' := (downloaded st + Z.of_nat (String.length (data c)))%Z in
    let w1 := {| fs := alter (fun x => x ++ data c) dest (fs w);
                 chat := chat w; reports := reports w |} in
    let quiet :=
      stream cb total dest broken rest
        {| downloaded := d'; last_update := last_update st;
           last_percent := last_percent st |} w1 in
    match cb with
    | Some f =>
        if (total =? 0)%Z then quiet
        else
          match Float.true_divide (d' * 100) total with
          | Raise e => (Raise e, w1)
          | Ok x =>
              let percent := Float.to_int x in
              if Qle_bool 1 (arrival c - last_update st)
                 || negb (percent =? last_percent st)%Z
              then
                let r := {| at_time := arrival c; bytes_so_far := d';
                            of_total := total; shown := percent |} in
                match f percent
                        {| fs := fs w1; chat := chat w1;
                           reports := (reports w1 ++ [r])%list |} with
                | (Ok _, w3) =>
                    stream cb total dest broken rest
                      {| downloaded := d'; last_update := arrival c;
                         last_percent := percent |} w3
                | (Raise e, w3) => (Raise e, w3)
                end
              else quiet
          end
    | None => quiet
    end.
Proof.
  cbn [stream]. unfold bind at 1. cbn [f_write]. cbv zeta.
  destruct cb as [f|]; [|reflexivity].
  destruct (total =? 0)%Z; [reflexivity|].
  unfold bind at 1, lift.
  destruct (Float.true_divide _ total) as [x|e]; [|reflexivity].
  destruct (_ || _); [|reflexivity].
  unfold bind at 1. cbn [note]. unfold bind at 1. reflexivity.
Qed.

Lemma stream_no_download_error cb total dest broken chunks st w msg :
  raises_no_download_error cb ->
  fst (stream cb total dest broken chunks st w) <> Raise (DownloadError msg).
Proof.
  intros Hcb. revert st w.
  induction chunks as [|c rest IH]; intros st w; cbn [stream].
  - destruct broken; discriminate.
  - unfold bind at 1. cbn [f_write].
    destruct cb as [f|]; [|apply IH].
    destruct (total =? 0)%Z; [apply IH|].
    unfold bind at 1, lift, Float.true_divide.
    destruct (_ =? 0)%Z; [discriminate|].
    destruct (_ <=? _)%Z; [discriminate|].
    destruct (_ || _); [|apply IH].
    unfold bind at 1. cbn [note].
    unfold bind at 1.
    match goal with |- context [f ?p ?w'] =>
      pose proof (Hcb f eq_refl p w' msg) as Hf; destruct (f p w') as [[[]|e] w2]
    end; [apply IH|exact Hf].
Qed.

Lemma download_file_unfold E url dest cb w resp :
  http_get E url = inr resp ->
  download_file E url dest cb w =
    if negb (status resp =? 200)%Z then
      (Raise (DownloadError ("HTTP " ++ Str.of_Z (status resp))), w)
    else
      stream cb (or_int (content_length resp) 0) dest (body_error resp)
        (body resp)
        {| downloaded := 0; last_update := 0%Q; last_percent := 0 |}
        {| fs := <[dest := ""]> (fs w); chat := chat w; reports := reports w |}.
Proof.
  intros Hget. unfold download_file, session_get. rewrite Hget.
  unfold bind at 1, ret. cbv beta iota.
  destruct (negb _); reflexivity.
Qed.

Lemma report_progress_no_download_error E :
  raises_no_download_error (Some (report_progress E)).
Proof.
  intros f [= <-] p w msg. unfold report_progress, try_except.
  destruct (tg_chat E (EditText ("📥 Downloading… " ++ Str.of_Z p ++ "%")) w)
    as (_ & _ & _ & Hr).
  destruct (tg E _ w) as [r w1]; simpl in *. subst r.
  destruct (platform E _ _) as [[]|]; discriminate.
Qed.

(** C3, as the code has it. The download raises [DownloadError], carrying
    "HTTP" and the status code, exactly when the status is not 200; it does
    so at once, leaving the world as it was: no file is created or
    written. *)
Theorem download_error_iff_status_not_200 E url dest cb w resp :
  http_get E url = inr resp ->
  raises_no_download_error cb ->
  (status resp <> 200%Z ->
   download_file E url dest cb w
   = (Raise (DownloadError ("HTTP " ++ Str.of_Z (status resp))), w))
  /\ (forall msg,
        fst (download_file E url dest cb w) = Raise (DownloadError msg) ->
        status resp <> 200%Z).
Proof.
  intros Hget Hcb. rewrite (download_file_unfold _ _ _ _ _ _ Hget).
  destruct (Z.eqb_spec (status resp) 200) as [Hs|Hs]; simpl negb; cbv iota.
  - split; [contradiction|]. intros msg H.
    now apply stream_no_download_error in H.
  - split; auto.
Qed.

Lemma download_error_iff_status_not_200_witness :
  download_file
    {| http_get := serving {| status := 404; content_length := None;
                              body := []; body_error := None |};
       platform := willing |}
    "http://example.com/a.bin" "/tmp/a.bin" None empty_world
  = (Raise (DownloadError "HTTP 404"), empty_world).
Proof.
  apply (proj1 (download_error_iff_status_not_200
                  {| http_get := serving {| status := 404; content_length := None;
                                            body := []; body_error := None |};
                     platform := willing |}
                  "http://example.com/a.bin" "/tmp/a.bin" None empty_world
                  {| status := 404; content_length := None;
                     body := []; body_error := None |}
                  eq_refl ltac:(intros f [=]))).
  discriminate.
Defined.

(** 204 is a success status, and the download raises on it. *)
Lemma download_error_on_status_204 :
  fst (download_file
         {| http_get := serving {| status := 204; content_length := None;
                                   body := []; body_error := None |};
            platform := willing |}
         "http://example.com/a.bin" "/tmp/a.bin" None empty_world)
  = Raise (DownloadError "HTTP 204")
  /\ (200 <=? 204)%Z && (204 <? 300)%Z = true.
Proof. split; reflexivity. Qed.

(** Without a callback, or without a total, the loop only writes. *)
Lemma stream_silent cb total dest broken chunks st w :
  cb = None \/ total = 0%Z ->
  stream cb total dest broken chunks st w
  = (match broken with Some e => Raise (Outside e) | None => Ok tt end,
     {| fs := alter (fun c => c ++ joined chunks) dest (fs w);
        chat := chat w; reports := reports w |}).
Proof.
  intros Hq. revert st w.
  induction chunks as [|c rest IH]; intros st w; cbn [stream].
  - rewrite alter_id by (intros x _; apply string_app_nil_r).
    destruct w; now destruct broken.
  - unfold bind at 1. cbn [f_write].
    assert (forall st',
      stream cb total dest broken rest st'
        {| fs := alter (fun x => x ++ data c) dest (fs w);
           chat := chat w; reports := reports w |}
      = (match broken with Some e => Raise (Outside e) | None => Ok tt end,
         {| fs := alter (fun x => x ++ joined (c :: rest)) dest (fs w);
            chat := chat w; reports := reports w |})) as Hrest.
    { intros st'. rewrite IH. simpl. f_equal. f_equal.
      apply map_eq; intros q. rewrite !lookup_alter.
      destruct (decide (dest = q)) as [->|]; [|reflexivity].
      rewrite decide_True by reflexivity.
      destruct (fs w !! q) as [x|]; simpl; [|reflexivity].
      now rewrite string_app_assoc. }
    destruct Hq as [->| ->]; [apply Hrest|].
    destruct cb; apply Hrest.
Qed.

(** C5. When the source declares no size (no header, or a size of 0) and
    answers 200, the run is the run without any callback: the callback is
    never invoked and no report is made. Every chunk received is appended,
    so the destination holds the whole body, whether or not the stream then
    breaks. *)
Theorem no_total_no_progress_full_file E url dest cb w resp :
  http_get E url = inr resp ->
  status resp = 200%Z ->
  content_length resp = None \/ content_length resp = Some 0%N ->
  let w' := snd (download_file E url dest cb w) in
  download_file E url dest cb w = download_file E url dest None w
  /\ reports w' = reports w
  /\ chat w' = chat w
  /\ fs w' !! dest = Some (joined (body resp))
  /\ fst (download_file E url dest cb w)
     = match body_error resp with Some e => Raise (Outside e) | None => Ok tt end.
Proof.
  intros Hget Hs Hlen w'. subst w'.
  assert (or_int (content_length resp) 0 = 0%Z) as Ht
    by (destruct Hlen as [-> | ->]; reflexivity).
  rewrite !(download_file_unfold _ _ _ _ _ _ Hget), Hs, Ht.
  simpl negb. cbv iota. rewrite !stream_silent by auto. simpl.
  repeat split; try reflexivity.
  rewrite lookup_alter. destruct (decide (dest = dest)); [|congruence].
  now rewrite lookup_insert_eq.
Qed.

Lemma no_total_no_progress_full_file_witness :
  let E := {| http_get := serving {| status := 200; content_length := None;
                                     body := at_seconds [("abc", 5%Z); ("def", 6%Z)];
                                     body_error := None |};
              platform := willing |} in
  fs (snd (download_file E "http://example.com/a.bin" "/tmp/a.bin"
             (Some (report_progress E)) empty_world)) !! "/tmp/a.bin"
  = Some "abcdef"
  /\ reports (snd (download_file E "http://example.com/a.bin" "/tmp/a.bin"
                     (Some (report_progress E)) empty_world)) = [].
Proof.
  intros E.
  destruct (no_total_no_progress_full_file E "http://example.com/a.bin"
              "/tmp/a.bin" (Some (report_progress E)) empty_world _ eq_refl eq_refl
              (or_introl eq_refl)) as (_ & Hr & _ & Hf & _).
  split; [exact Hf | exact Hr].
Defined.

(** ** Progress reports *)

Lemma skipn_app_length {A} (l l' : list A) :
  skipn (List.length l) (l ++ l')%list = l'.
Proof. induction l as [|x l IH]; simpl; auto. Qed.

Lemma pct_mono (d1 d2 total : Z) :
  (0 <= d1 <= d2)%Z -> (0 < total)%Z -> (pct d1 total <= pct d2 total)%Z.
Proof.
  intros Hd Ht. unfold pct. apply to_int_mono. split.
  - apply nearest_nonneg; lia.
  - apply nearest_mono; lia.
Qed.

Lemma pct_zero (total : Z) : (0 < total)%Z -> pct 0 total = 0%Z.
Proof. intros Ht. unfold pct. simpl Z.mul. now rewrite nearest_zero. Qed.


(** The loop invariant: the ghost log and the platform log grow together,
    one edit per report, and the reports are paced. *)
Lemma stream_reports E total dest broken chunks st w :
  (0 < total)%Z -> (0 <= downloaded st)%Z ->
  (last_percent st <= pct (downloaded st) total)%Z ->
  let w' := snd (stream (Some (report_progress E)) total dest broken chunks st w) in
  exists new said,
    reports w' = (reports w ++ new)%list
    /\ chat w' = (chat w ++ said)%list
    /\ map fst said = map edit_of new
    /\ paced (last_update st) (last_percent st) new
    /\ Forall (report_ok total (downloaded st)) new.
Proof.
  intros Ht. revert st w.
  induction chunks as [|c rest IH]; intros st w Hd Hp.
  - exists [], []. rewrite !app_nil_r.
    destruct broken; simpl; repeat split; auto.
  - rewrite stream_cons. cbv zeta.
    set (d' := (downloaded st + Z.of_nat (String.length (data c)))%Z).
    set (w1 := {| fs := _; chat := chat w; reports := reports w |}).
    assert (0 <= d')%Z as Hd' by (unfold d'; lia).
    assert (downloaded st <= d')%Z as Hdd by (unfold d'; lia).
    assert (last_percent st <= pct d' total)%Z as Hp'
      by (etransitivity; [exact Hp|apply pct_mono; lia]).
    assert (forall r, report_ok total d' r -> report_ok total (downloaded st) r)
      as Hweak by (intros r (? & ? & ?); repeat split; auto; lia).
    destruct (Z.eqb_spec total 0); [lia|].
    destruct (Float.true_divide (d' * 100) total) as [x|e] eqn:Hdiv.
    2:{ exists [], []. rewrite !app_nil_r. simpl. repeat split; auto. }
    apply true_divide_ok in Hdiv; [|lia|lia]. subst x.
    fold (pct d' total).
    destruct (Qle_bool 1 (arrival c - last_update st)
              || negb (pct d' total =? last_percent st)%Z) eqn:Hcond.
    2:{ destruct (IH {| downloaded := d'; last_update := last_update st;
                        last_percent := last_percent st |} w1 Hd' Hp')
          as (new & said & H1 & H2 & H3 & H4 & H5).
        exists new, said; repeat split; auto.
        eapply Forall_impl; [exact H5|exact Hweak]. }
    assert ((1 <= arrival c - last_update st)%Q
            \/ pct d' total <> last_percent st) as Hwhy.
    { apply orb_true_iff in Hcond as [H|H].
      - left. now apply Qle_bool_iff.
      - right. apply negb_true_iff in H. now apply Z.eqb_neq. }
    set (r := {| at_time := arrival c; bytes_so_far := d';
                 of_total := total; shown := pct d' total |}).
    set (w2 := {| fs := fs w1; chat := chat w1; reports := (reports w1 ++ [r])%list |}).
    pose proof (report_progress_chat E (pct d' total) w2) as Hc.
    cbv zeta in Hc.
    pose proof (report_progress_reports E (pct d' total) w2) as Hr.
    unfold same_reports in Hr.
    destruct (report_progress E (pct d' total) w2) as [res w3]; simpl in Hc, Hr.
    assert (report_ok total (downloaded st) r) as Hrok
      by (repeat split; simpl; auto).
    destruct res as [[]|e].
    + destruct (IH {| downloaded := d'; last_update := arrival c;
                      last_percent := pct d' total |} w3 Hd' (Z.le_refl _))
        as (new & said & H1 & H2 & H3 & H4 & H5).
      exists (r :: new), ((edit_of r, platform E (List.length (chat w2)) (edit_of r)) :: said).
      simpl in H1, H2. rewrite H1, H2, Hr, Hc. simpl.
      rewrite <- !app_assoc. simpl. repeat split; auto.
      * now rewrite H3.
      * constructor; [assumption|].
        eapply Forall_impl; [exact H5|exact Hweak].
    + exists [r], [(edit_of r, platform E (List.length (chat w2)) (edit_of r))].
      simpl. rewrite Hr, Hc. simpl. repeat split; auto.
Qed.

(** The same for a whole download. *)
Lemma download_reports E url dest w :
  let run := download_file E url dest (Some (report_progress E)) in
  map fst (said_by run w) = map edit_of (made_by run w)
  /\ paced 0 0 (made_by run w)
  /\ Forall (fun r => (0 < of_total r)%Z /\ (0 <= bytes_so_far r)%Z
                      /\ shown r = pct (bytes_so_far r) (of_total r))
       (made_by run w).
Proof.
  intros run. subst run.
  unfold made_by, said_by.
  destruct (http_get E url) as [e|resp] eqn:Hget.
  - unfold download_file, session_get. rewrite Hget.
    unfold bind, raise. simpl. rewrite !skipn_all. repeat split; constructor.
  - rewrite (download_file_unfold _ _ _ _ _ _ Hget).
    destruct (negb _).
    { simpl. rewrite !skipn_all. repeat split; constructor. }
    set (total := or_int (content_length resp) 0).
    assert (0 <= total)%Z as Ht.
    { unfold total, or_int. destruct (content_length resp) as [n|]; [|lia].
      destruct (Z.of_N n =? 0)%Z; lia. }
    destruct (Z.eq_dec total 0%Z) as [Hz|Hz].
    + rewrite Hz, stream_silent by auto. simpl. rewrite !skipn_all.
      repeat split; constructor.
    + set (w1 := {| fs := _; chat := chat w; reports := reports w |}).
      destruct (stream_reports E total dest (body_error resp) (body resp)
                  {| downloaded := 0%Z; last_update := 0%Q; last_percent := 0%Z |}
                  w1 ltac:(lia) ltac:(simpl; lia))
        as (new & said & H1 & H2 & H3 & H4 & H5).
      { simpl. rewrite pct_zero; lia. }
      simpl in H1, H2. rewrite H1, H2, !skipn_app_length.
      repeat split; auto.
      eapply Forall_impl; [exact H5|].
      intros r (-> & ? & ?); repeat split; auto; simpl in *; lia.
Qed.


(** Scenario C, scaled down: ten chunks of three bytes against a declared
    total of thirty, a quarter of a second apart. *)
Example progress_every_tenth :
  let E := {| http_get := serving
                {| status := 200; content_length := Some 30%N;
                   body := map (fun k => {| data := "abc";
                                            arrival := inject_Z (Z.of_nat k) / 4 |})
                             (seq 1000 10);
                   body_error := None |};
              platform := willing |} in
  map shown
    (made_by (download_file E "http://example.com/a.bin" "/tmp/a.bin"
                (Some (report_progress E))) empty_world)
  = [10; 20; 30; 40; 50; 60; 70; 80; 90; 100]%Z.
Proof. vm_compute. reflexivity. Qed.

Lemma to_int_hundred : Float.to_int (100 * Float.scale) = 100%Z.
Proof. reflexivity. Qed.






(** ** Upload and cleanup *)

Lemma last_snoc_chat {A} (l : list A) (x : A) : last (l ++ [x])%list = Some x.
Proof. induction l as [|y [|z l] IH]; simpl in *; auto. Qed.

(** With a willing platform the upload ends in the document call. *)
Lemma upload_willing E m url file_path w :
  (forall n c, platform E n c = None) ->
  fst (upload E m url file_path w) = Ok tt
  /\ last (chat (snd (upload E m url file_path w)))
     = Some (SendDocument (chat_id m) file_path (caption_of url) (message_id m),
             None).
Proof.
  intros Hp. unfold upload, try_finally, try_except, bind, tg. simpl.
  rewrite !Hp. simpl.
  unfold os_remove. simpl.
  destruct (fs w !! file_path); simpl; split; auto; apply last_snoc_chat.
Qed.

(** The upload block removes the file, whatever the platform answers. *)
Lemma upload_removes_file E m url file_path w :
  fs (snd (upload E m url file_path w)) !! file_path = None.
Proof.
  unfold upload, try_finally.
  match goal with |- context [try_except ?a ?h w] =>
    assert (fs (snd (try_except a h w)) = fs w) as Hfs;
      [|destruct (try_except a h w) as [r w1]]
  end.
  { pose proof (tg_chat E) as Ht.
    unfold try_except, bind.
    destruct (Ht (SendChatAction (chat_id m) "upload_document") w) as (_ & H1 & _).
    destruct (tg E (SendChatAction (chat_id m) "upload_document") w) as [[[]|e] w1];
      simpl in *.
    - destruct (Ht (SendDocument (chat_id m) file_path (caption_of url) (message_id m)) w1)
        as (_ & H2 & _).
      destruct (tg E (SendDocument _ _ _ _) w1) as [[[]|e] w2]; simpl in *;
        [congruence|].
      destruct e as [| | | |[msg|msg|msg]];
        try destruct (Str.contains _ _);
        match goal with |- context [tg E ?c w2] =>
          destruct (Ht c w2) as (_ & H3 & _); congruence
        end.
    - destruct e as [| | | |[msg|msg|msg]];
        try destruct (Str.contains _ _);
        match goal with |- context [tg E ?c w1] =>
          destruct (Ht c w1) as (_ & H3 & _); congruence
        end. }
  simpl in Hfs. unfold try_except, os_remove.
  destruct (fs w1 !! file_path) as [x|] eqn:Hx; simpl.
  - apply lookup_delete_eq.
  - assumption.
Qed.

(** Once the download has succeeded and the "uploading" edit is accepted,
    the handler leaves no file behind. *)
Lemma transfer_removes_file_after_download E m url file_path w :
  fst (download_file E url file_path (Some (report_progress E)) w) = Ok tt ->
  platform E
    (List.length
       (chat (snd (download_file E url file_path (Some (report_progress E)) w))))
    (EditText "📤 Uploading…") = None ->
  fs (snd (transfer E m url file_path w)) !! file_path = None.
Proof.
  intros Hdl Hp. unfold transfer, bind, attempt.
  destruct (download_file E url file_path (Some (report_progress E)) w)
    as [r w1]; simpl in *; subst r.
  destruct (tg_chat E (EditText "📤 Uploading…") w1) as (_ & _ & _ & Hr).
  rewrite Hp in Hr.
  destruct (tg E (EditText "📤 Uploading…") w1) as [r w2]; simpl in *; subst r.
  apply upload_removes_file.
Qed.

(** C8, as the code has it. Every document call of the handler is made for
    the chat of the message, sends the path of the local file, carries a
    caption that links to the link of the message (the text stripped, and a
    share link rewritten to its direct-download URL), and replies to the
    message. When the download succeeds and the platform accepts every
    call, the handler ends with that document call. *)
Theorem document_call_links_normalized_url guess_type guess_extension E m w :
  let url := link_of m in
  let file_path := file_path_of guess_type guess_extension url in
  let run := handle_link guess_type guess_extension E m in
  (forall cid document caption reply_to o,
      In (SendDocument cid document caption reply_to, o) (said_by run w) ->
      cid = chat_id m /\ document = file_path /\ caption = caption_of url
      /\ reply_to = message_id m)
  /\ ((forall n c, platform E n c = None) ->
      Str.startswith "http" (text m) = true ->
      fst (download_file E url file_path (Some (report_progress E))
             (snd (tg E (Reply "📥 Starting download…") w))) = Ok tt ->
      fst (run w) = Ok tt
      /\ last (chat (snd (run w)))
         = Some (SendDocument (chat_id m) file_path (caption_of url) (message_id m),
                 None)).
Proof.
  intros url file_path run. split.
  - intros cid document caption reply_to o Hin.
    destruct (handle_link_chat guess_type guess_extension E m w)
      as (l & Hl & Hall).
    unfold run, said_by in Hin. rewrite Hl, skipn_app_length in Hin.
    rewrite Forall_forall in Hall.
    apply list_elem_of_In, Hall in Hin. simpl in Hin.
    destruct Hin as [[]|Hin]; exact Hin.
  - intros Hp Hhttp Hdl. unfold run.
    rewrite handle_link_http by assumption. fold url. fold file_path.
    unfold bind.
    destruct (tg_chat E (Reply "📥 Starting download…") w) as (_ & _ & _ & Hr).
    rewrite Hp in Hr.
    destruct (tg E (Reply "📥 Starting download…") w) as [r w1]; simpl in *.
    subst r. unfold transfer, bind, attempt.
    destruct (download_file E url file_path (Some (report_progress E)) w1)
      as [r w2]; simpl in Hdl; subst r.
    destruct (tg_chat E (EditText "📤 Uploading…") w2) as (_ & _ & _ & Hr).
    rewrite Hp in Hr.
    destruct (tg E (EditText "📤 Uploading…") w2) as [r w3]; simpl in *.
    subst r. now apply upload_willing.
Qed.

Lemma document_call_links_normalized_url_witness :
  let E := {| http_get := serving {| status := 200; content_length := Some 6%N;
                                     body := at_seconds [("abc", 5%Z); ("def", 6%Z)];
                                     body_error := None |};
              platform := willing |} in
  let m := {| text := "http://example.com/a.bin"; chat_id := 7; message_id := 9 |} in
  fst (handle_link sample_guess_type sample_guess_extension E m empty_world) = Ok tt
  /\ last (chat (snd (handle_link sample_guess_type sample_guess_extension E m
                        empty_world)))
     = Some (SendDocument 7
               (file_path_of sample_guess_type sample_guess_extension
                  "http://example.com/a.bin")
               (caption_of "http://example.com/a.bin") 9,
             None).
Proof.
  intros E m.
  apply (proj2 (document_call_links_normalized_url
                  sample_guess_type sample_guess_extension E m empty_world));
    reflexivity.
Defined.

(** A share link: the caption carries the rewritten URL, not the text of
    the message. *)
Lemma caption_of_share_link_is_rewritten :
  let E := {| http_get := serving {| status := 200; content_length := Some 6%N;
                                     body := at_seconds [("abc", 5%Z); ("def", 6%Z)];
                                     body_error := None |};
              platform := willing |} in
  let m := {| text := "https://drive.google.com/file/d/ABC123/view?usp=sharing";
              chat_id := 7; message_id := 9 |} in
  last (chat (snd (handle_link sample_guess_type sample_guess_extension E m
                     empty_world)))
  = Some (SendDocument 7 "/tmp/a352a662553e.bin"
            "✅ <b>Downloaded via:</b> <a href='https://drive.google.com/uc?export=download&id=ABC123'>link</a>"
            9,
          None)
  /\ String.eqb
       (caption_of "https://drive.google.com/uc?export=download&id=ABC123")
       (caption_of (text m))
     = false.
Proof. vm_compute. auto. Qed.

(** C1 fails on the code: the cleanup guards the upload only. When the
    stream breaks after a chunk, the handler reports the error and returns;
    the partial file stays. *)
Lemma broken_stream_leaves_partial_file :
  let E := {| http_get := serving
                {| status := 200; content_length := Some 6%N;
                   body := at_seconds [("abc", 5%Z)];
                   body_error := Some (OtherError "Response payload is not completed") |};
              platform := willing |} in
  let m := {| text := "http://example.com/a.bin"; chat_id := 7; message_id := 9 |} in
  let w' := snd (handle_link sample_guess_type sample_guess_extension E m empty_world) in
  fst (handle_link sample_guess_type sample_guess_extension E m empty_world) = Ok tt
  /\ file_path_of sample_guess_type sample_guess_extension (link_of m)
     = "/tmp/1a1d5d1dad96.bin"
  /\ fs w' !! "/tmp/1a1d5d1dad96.bin" = Some "abc"
  /\ last (chat w')
     = Some (EditText "❌ Unexpected error: Response payload is not completed", None).
Proof. vm_compute. auto. Qed.

(** Scenario B: the source answers 404. The chat shows the failure, nothing
    is uploaded and no file is left. *)
Example not_found_leaves_nothing :
  let E := {| http_get := serving {| status := 404; content_length := None;
                                     body := []; body_error := None |};
              platform := willing |} in
  let m := {| text := "http://example.com/a.bin"; chat_id := 7; message_id := 9 |} in
  let w' := snd (handle_link sample_guess_type sample_guess_extension E m empty_world) in
  map fst (chat w')
    = [Reply "📥 Starting download…"; EditText "❌ Download failed: HTTP 404"]
  /\ fs w' = ∅.
Proof. vm_compute. auto. Qed.

(** Scenario D: the platform refuses the document with a bad request that
    names an invalid file HTTP URL. The chat shows the message written for
    that case, and the file is removed. *)
Example invalid_file_url_is_reported :
  let E := {| http_get := serving {| status := 200; content_length := None;
                                     body := at_seconds [("abc", 5%Z)];
                                     body_error := None |};
              platform := fun _ c =>
                match c with
                | SendDocument _ _ _ _ =>
                    Some (TelegramBadRequest
                            "Telegram server says - Bad Request: invalid file HTTP URL specified")
                | _ => None
                end |} in
  let m := {| text := "http://example.com/a.bin"; chat_id := 7; message_id := 9 |} in
  let w' := snd (handle_link sample_guess_type sample_guess_extension E m empty_world) in
  last (chat w')
    = Some (EditText "❌ Invalid file URL. The link may not point to a valid file.",
            None)
  /\ fs w' = ∅.
Proof. vm_compute. auto. Qed.

(** ** Destination file name *)








(** * Further properties *)

(** ** Link normalizer *)

(** X1. The rewrite of share links is idempotent: what it produces is no
    share link, so a second pass changes nothing. *)
Theorem normalize_idempotent (url : string) :
  normalize (normalize url) = normalize url.
Proof.
  assert (forall file_id, normalize (GDRIVE_DIRECT file_id) = GDRIVE_DIRECT file_id)
    as Hdirect by reflexivity.
  unfold normalize at 2 3.
  destruct (Re.match_ GDRIVE_REGEX url) as [[file_id|]|] eqn:Hm; auto.
  unfold normalize. now rewrite Hm.
Qed.

(** ** Streaming downloader: what reaches the file *)

Lemma report_progress_fs E percent w :
  fs (snd (report_progress E percent w)) = fs w.
Proof.
  unfold report_progress, try_except.
  destruct (tg_chat E (EditText ("📥 Downloading… " ++ Str.of_Z percent ++ "%")) w)
    as (_ & Hf & _).
  destruct (tg E _ w) as [[[]|e] w1]; simpl in *; [assumption|].
  now destruct e as [| | | |[]].
Qed.

Lemma alter_append_twice (dest a b : string) (m : gmap string string) :
  alter (fun x => x ++ b) dest (alter (fun x => x ++ a) dest m)
  = alter (fun x => x ++ (a ++ b)) dest m.
Proof.
  apply map_eq; intros q. rewrite !lookup_alter.
  destruct (decide (dest = q)) as [->|]; [|reflexivity].
  rewrite decide_True by reflexivity.
  destruct (m !! q) as [x|]; simpl; [|reflexivity].
  now rewrite string_app_assoc.
Qed.

(** The loop appends the chunks in order, and stops between two chunks. *)
Lemma stream_writes_prefix E total dest broken chunks st w :
  let run := stream (Some (report_progress E)) total dest broken chunks st w in
  exists k,
    (k <= List.length chunks)%nat
    /\ fs (snd run) = alter (fun x => x ++ joined (firstn k chunks)) dest (fs w)
    /\ (fst run = Ok tt -> k = List.length chunks).
Proof.
  revert st w. induction chunks as [|c rest IH]; intros st w run; subst run.
  - exists 0%nat. simpl. split; [lia|]. split; [|reflexivity].
    rewrite alter_id by (intros x _; apply string_app_nil_r).
    now destruct broken.
  - rewrite stream_cons. cbv zeta.
    set (w1 := {| fs := _; chat := chat w; reports := reports w |}).
    assert (forall st' w',
              fs w' = fs w1 ->
              exists k,
                (k <= List.length (c :: rest))%nat
                /\ fs (snd (stream (Some (report_progress E)) total dest broken
                              rest st' w'))
                   = alter (fun x => x ++ joined (firstn k (c :: rest))) dest (fs w)
                /\ (fst (stream (Some (report_progress E)) total dest broken
                           rest st' w') = Ok tt ->
                    k = List.length (c :: rest))) as Hgo.
    { intros st' w' Hw'. destruct (IH st' w') as (k & Hk & Hfs & Hok).
      exists (S k). simpl. split; [lia|]. split; [|intros H; f_equal; auto].
      rewrite Hfs, Hw'. unfold w1. simpl. apply alter_append_twice. }
    assert (exists k,
              (k <= List.length (c :: rest))%nat
              /\ fs w1 = alter (fun x => x ++ joined (firstn k (c :: rest))) dest (fs w))
      as Hstop.
    { exists 1%nat. simpl. split; [lia|]. unfold joined; simpl.
      now rewrite string_app_nil_r. }
    destruct (total =? 0)%Z; [now apply Hgo|].
    destruct (Float.true_divide _ total) as [x|e].
    2:{ destruct Hstop as (k & Hk & Hfs). exists k.
        split; [assumption|]. split; [exact Hfs|discriminate]. }
    destruct (_ || _); [|now apply Hgo].
    match goal with |- context [report_progress E ?p ?w2] =>
      pose proof (report_progress_fs E p w2) as Hfs2;
      destruct (report_progress E p w2) as [[[]|e] w3]
    end; simpl in Hfs2.
    + now apply Hgo.
    + destruct Hstop as (k & Hk & Hfs). exists k.
      split; [assumption|]. split; [|discriminate].
      cbn [snd]. rewrite Hfs2. exact Hfs.
Qed.

(** X2. After a 200 answer the destination holds the first chunks of the
    body, in order, whatever it held before; it holds the whole body when
    the download returns normally. No other file changes. *)
Theorem download_writes_body_in_order E url dest w resp :
  http_get E url = inr resp ->
  status resp = 200%Z ->
  let run := download_file E url dest (Some (report_progress E)) w in
  (exists k, (k <= List.length (body resp))%nat
             /\ fs (snd run) !! dest = Some (joined (firstn k (body resp))))
  /\ (fst run = Ok tt -> fs (snd run) !! dest = Some (joined (body resp)))
  /\ (forall q, q <> dest -> fs (snd run) !! q = fs w !! q).
Proof.
  intros Hget Hs run. subst run.
  rewrite (download_file_unfold _ _ _ _ _ _ Hget), Hs. simpl negb. cbv iota.
  set (w1 := {| fs := <[dest := ""]> (fs w); chat := chat w; reports := reports w |}).
  destruct (stream_writes_prefix E (or_int (content_length resp) 0) dest
              (body_error resp) (body resp)
              {| downloaded := 0%Z; last_update := 0%Q; last_percent := 0%Z |} w1)
    as (k & Hk & Hfs & Hok).
  assert (forall j, alter (fun x => x ++ joined (firstn j (body resp))) dest (fs w1) !! dest
                    = Some (joined (firstn j (body resp)))) as Hat.
  { intros j. rewrite lookup_alter_eq. unfold w1; simpl.
    now rewrite lookup_insert_eq. }
  split; [|split].
  - exists k. split; [assumption|]. rewrite Hfs. apply Hat.
  - intros H. specialize (Hok H). rewrite Hfs, Hat, Hok.
    now rewrite firstn_all.
  - intros q Hq. rewrite Hfs, lookup_alter_ne by congruence.
    unfold w1; simpl. now rewrite lookup_insert_ne by congruence.
Qed.

Lemma download_writes_body_in_order_witness :
  let E := {| http_get := serving {| status := 200; content_length := Some 6%N;
                                     body := at_seconds [("abc", 5%Z); ("def", 6%Z)];
                                     body_error := None |};
              platform := willing |} in
  let w := {| fs := {["/tmp/a.bin" := "stale content"]}; chat := []; reports := [] |} in
  let run := download_file E "http://example.com/a.bin" "/tmp/a.bin"
               (Some (report_progress E)) w in
  fst run = Ok tt /\ fs (snd run) !! "/tmp/a.bin" = Some "abcdef".
Proof.
  intros E w run. split; [reflexivity|].
  apply (proj1 (proj2 (download_writes_body_in_order E "http://example.com/a.bin"
                         "/tmp/a.bin" w _ eq_refl eq_refl))).
  reflexivity.
Defined.

(** ** Streaming downloader: how the progress display ends *)

Lemma last_map {A B} (f : A -> B) (l : list A) :
  last (map f l) = option_map f (last l).
Proof.
  induction l as [|x l IH]; [reflexivity|].
  simpl map. rewrite !last_cons, IH. now destruct (last l).
Qed.

(** After every chunk [last_percent] is the percent of the bytes counted;
    so when the loop ends normally, the last report shows the percent of
    the whole body. There is at most one report per chunk. *)
Lemma stream_tail E total dest broken chunks st w :
  (0 < total)%Z -> (0 <= downloaded st)%Z ->
  last_percent st = pct (downloaded st) total ->
  let run := stream (Some (report_progress E)) total dest broken chunks st w in
  exists new,
    reports (snd run) = (reports w ++ new)%list
    /\ (List.length new <= List.length chunks)%nat
    /\ (fst run = Ok tt ->
        match last new with
        | Some r => shown r
        | None => last_percent st
        end = pct (downloaded st + body_size chunks) total).
Proof.
  intros Ht. revert st w.
  induction chunks as [|c rest IH]; intros st w Hd Hp run; subst run.
  - exists []. rewrite app_nil_r. simpl. rewrite Z.add_0_r.
    destruct broken; simpl; repeat split; auto.
  - rewrite stream_cons. cbv zeta.
    set (d' := (downloaded st + Z.of_nat (String.length (data c)))%Z).
    set (w1 := {| fs := _; chat := chat w; reports := reports w |}).
    assert (0 <= d')%Z as Hd' by (unfold d'; lia).
    assert ((downloaded st + body_size (c :: rest) = d' + body_size rest)%Z)
      as Hsize by (unfold d'; simpl; lia).
    rewrite Hsize.
    destruct (Z.eqb_spec total 0); [lia|].
    destruct (Float.true_divide (d' * 100) total) as [x|e] eqn:Hdiv.
    2:{ exists []. rewrite app_nil_r. simpl. repeat split; auto; [lia|discriminate]. }
    apply true_divide_ok in Hdiv; [|lia|lia]. subst x.
    fold (pct d' total).
    destruct (Qle_bool 1 (arrival c - last_update st)
              || negb (pct d' total =? last_percent st)%Z) eqn:Hcond.
    + set (r := {| at_time := arrival c; bytes_so_far := d';
                   of_total := total; shown := pct d' total |}).
      set (w2 := {| fs := fs w1; chat := chat w1;
                    reports := (reports w1 ++ [r])%list |}).
      pose proof (report_progress_reports E (pct d' total) w2) as Hr.
      unfold same_reports in Hr.
      destruct (report_progress E (pct d' total) w2) as [[[]|e] w3]; simpl in Hr.
      * destruct (IH {| downloaded := d'; last_update := arrival c;
                        last_percent := pct d' total |} w3 Hd' eq_refl)
          as (new & H1 & H2 & H3).
        exists (r :: new). simpl in *. rewrite H1, Hr. simpl.
        rewrite <- app_assoc. simpl. split; [reflexivity|]. split; [lia|].
        intros Hok. specialize (H3 Hok). rewrite last_cons.
        now destruct (last new).
      * exists [r]. simpl. rewrite Hr. simpl.
        split; [reflexivity|]. split; [lia|discriminate].
    + apply orb_false_iff in Hcond as [_ Hsame].
      apply negb_false_iff, Z.eqb_eq in Hsame.
      destruct (IH {| downloaded := d'; last_update := last_update st;
                      last_percent := last_percent st |} w1 Hd'
                  ltac:(simpl; congruence))
        as (new & H1 & H2 & H3).
      exists new. simpl in *. split; [assumption|]. split; [lia|assumption].
Qed.

Lemma pct_full (total : Z) : (0 < total)%Z -> pct total total = 100%Z.
Proof.
  intros Ht. unfold pct. now rewrite nearest_hundred, to_int_hundred.
Qed.

(** The two logs of a download, as what was appended. *)
Lemma download_log E url dest w :
  let run := download_file E url dest (Some (report_progress E)) w in
  reports (snd run) = (reports w ++ made_by (download_file E url dest (Some (report_progress E))) w)%list
  /\ chat (snd run) = (chat w ++ said_by (download_file E url dest (Some (report_progress E))) w)%list.
Proof.
  intros run. subst run. unfold made_by, said_by.
  destruct (http_get E url) as [e|resp] eqn:Hget.
  - unfold download_file, session_get. rewrite Hget.
    unfold bind, raise. simpl. now rewrite !skipn_all, !app_nil_r.
  - rewrite (download_file_unfold _ _ _ _ _ _ Hget).
    destruct (negb _); [simpl; now rewrite !skipn_all, !app_nil_r|].
    set (total := or_int (content_length resp) 0).
    assert (0 <= total)%Z as Ht.
    { unfold total, or_int. destruct (content_length resp) as [n|]; [|lia].
      destruct (Z.of_N n =? 0)%Z; lia. }
    destruct (Z.eq_dec total 0%Z) as [Hz|Hz].
    + rewrite Hz, stream_silent by auto. simpl.
      now rewrite !skipn_all, !app_nil_r.
    + set (w1 := {| fs := _; chat := chat w; reports := reports w |}).
      destruct (stream_reports E total dest (body_error resp) (body resp)
                  {| downloaded := 0%Z; last_update := 0%Q; last_percent := 0%Z |}
                  w1 ltac:(lia) ltac:(simpl; lia))
        as (new & said & H1 & H2 & _).
      { simpl. rewrite pct_zero; lia. }
      simpl in H1, H2. now rewrite H1, H2, !skipn_app_length.
Qed.

Lemma download_tail E url dest w resp :
  http_get E url = inr resp ->
  let run := download_file E url dest (Some (report_progress E)) in
  (List.length (made_by run w) <= List.length (body resp))%nat
  /\ forall n,
       status resp = 200%Z -> content_length resp = Some n -> (0 < n)%N ->
       fst (run w) = Ok tt ->
       match last (made_by run w) with
       | Some r => shown r
       | None => 0%Z
       end = pct (body_size (body resp)) (Z.of_N n).
Proof.
  intros Hget run. subst run. unfold made_by.
  rewrite (download_file_unfold _ _ _ _ _ _ Hget).
  destruct (Z.eqb_spec (status resp) 200) as [Hs|Hs]; simpl negb; cbv iota.
  2:{ simpl. rewrite skipn_all. simpl. split; [lia|]. intros; contradiction. }
  set (w1 := {| fs := _; chat := chat w; reports := reports w |}).
  set (total := or_int (content_length resp) 0).
  assert (0 <= total)%Z as Ht.
  { unfold total, or_int. destruct (content_length resp) as [n|]; [|lia].
    destruct (Z.of_N n =? 0)%Z; lia. }
  destruct (Z.eq_dec total 0%Z) as [Hz|Hz].
  - rewrite Hz, stream_silent by auto. simpl. rewrite skipn_all. simpl.
    split; [lia|]. intros n _ Hn Hpos _. exfalso.
    unfold total, or_int in Hz. rewrite Hn in Hz.
    destruct (Z.eqb_spec (Z.of_N n) 0); lia.
  - destruct (stream_tail E total dest (body_error resp) (body resp)
                {| downloaded := 0%Z; last_update := 0%Q; last_percent := 0%Z |}
                w1 ltac:(lia) ltac:(simpl; lia))
      as (new & H1 & H2 & H3).
    { simpl. rewrite pct_zero; lia. }
    simpl in H1. rewrite H1, skipn_app_length.
    split; [assumption|]. intros n _ Hn Hpos Hok.
    specialize (H3 Hok). simpl in H3. rewrite H3. f_equal.
    unfold total, or_int. rewrite Hn.
    destruct (Z.eqb_spec (Z.of_N n) 0); [lia|reflexivity].
Qed.

(** X3. A download that returns normally after receiving exactly the number
    of bytes the source declared ends its progress display at 100%: the
    last report, and the last edit of the status message, show 100. *)
Theorem complete_download_ends_at_100 E url dest w resp n :
  http_get E url = inr resp ->
  status resp = 200%Z ->
  content_length resp = Some n -> (0 < n)%N ->
  body_size (body resp) = Z.of_N n ->
  let run := download_file E url dest (Some (report_progress E)) in
  fst (run w) = Ok tt ->
  last (map shown (made_by run w)) = Some 100%Z
  /\ exists o, last (said_by run w) = Some (EditText "📥 Downloading… 100%", o).
Proof.
  intros Hget Hs Hn Hpos Hsize run Hok.
  destruct (download_tail E url dest w resp Hget) as [_ Htail].
  specialize (Htail n Hs Hn Hpos Hok). fold run in Htail.
  rewrite Hsize, pct_full in Htail by lia.
  destruct (download_reports E url dest w) as (Hsaid & _). fold run in Hsaid.
  destruct (last (made_by run w)) as [r|] eqn:Hlast; [|discriminate].
  split; [rewrite last_map, Hlast; simpl; now rewrite Htail|].
  assert (last (map fst (said_by run w)) = Some (edit_of r)) as Hl
    by (rewrite Hsaid, last_map, Hlast; reflexivity).
  rewrite last_map in Hl.
  destruct (last (said_by run w)) as [[c o]|]; [|discriminate].
  injection Hl as ->. exists o. unfold edit_of. now rewrite Htail.
Qed.

Lemma complete_download_ends_at_100_witness :
  let E := {| http_get := serving {| status := 200; content_length := Some 6%N;
                                     body := at_seconds [("abc", 5%Z); ("def", 5%Z)];
                                     body_error := None |};
              platform := willing |} in
  let run := download_file E "http://example.com/a.bin" "/tmp/a.bin"
               (Some (report_progress E)) in
  last (map shown (made_by run empty_world)) = Some 100%Z
  /\ exists o, last (said_by run empty_world)
               = Some (EditText "📥 Downloading… 100%", o).
Proof.
  intros E run.
  apply (complete_download_ends_at_100 E "http://example.com/a.bin" "/tmp/a.bin"
           empty_world _ 6%N eq_refl eq_refl eq_refl); reflexivity.
Defined.

(** X4. A download edits the status message at most once per chunk
    received, and every edit it makes is a progress text. *)
Theorem at_most_one_edit_per_chunk E url dest w resp :
  http_get E url = inr resp ->
  let run := download_file E url dest (Some (report_progress E)) in
  (List.length (said_by run w) <= List.length (body resp))%nat
  /\ Forall (fun x => exists percent,
               fst x = EditText ("📥 Downloading… " ++ Str.of_Z percent ++ "%"))
       (said_by run w).
Proof.
  intros Hget run.
  destruct (download_tail E url dest w resp Hget) as [Hlen _]. fold run in Hlen.
  destruct (download_reports E url dest w) as (Hsaid & _). fold run in Hsaid.
  split.
  - apply (f_equal (@List.length _)) in Hsaid.
    rewrite !length_map in Hsaid. lia.
  - clear Hlen. revert Hsaid. generalize (made_by run w) as new.
    induction (said_by run w) as [|x l IH]; intros [|r new] Hm;
      try discriminate; constructor.
    + injection Hm as Hx _. exists (shown r). exact Hx.
    + injection Hm as _ Hm. eauto.
Qed.

Lemma at_most_one_edit_per_chunk_witness :
  let E := {| http_get := serving {| status := 200; content_length := Some 6%N;
                                     body := at_seconds [("abc", 5%Z); ("def", 5%Z)];
                                     body_error := None |};
              platform := willing |} in
  let run := download_file E "http://example.com/a.bin" "/tmp/a.bin"
               (Some (report_progress E)) in
  (List.length (said_by run empty_world) <= 2)%nat.
Proof.
  intros E run.
  exact (proj1 (at_most_one_edit_per_chunk E "http://example.com/a.bin"
                  "/tmp/a.bin" empty_world _ eq_refl)).
Defined.

Lemma download_edits_only E url dest w :
  Forall (fun x => is_edit (fst x))
    (said_by (download_file E url dest (Some (report_progress E))) w).
Proof.
  destruct (download_reports E url dest w) as (Hsaid & _).
  revert Hsaid.
  generalize (made_by (download_file E url dest (Some (report_progress E))) w) as new.
  induction (said_by _ w) as [|x l IH]; intros [|r new] Hm;
    try discriminate; constructor.
  - injection Hm as Hx _. rewrite Hx. exact I.
  - injection Hm as _ Hm. eauto.
Qed.

(** After a download that raised, the rest of the handler is one edit. *)
Lemma transfer_after_failed_download E m url file_path w e :
  fst (download_file E url file_path (Some (report_progress E)) w) = Raise e ->
  transfer E m url file_path w
  = tg E (EditText (download_failure_text e))
      (snd (download_file E url file_path (Some (report_progress E)) w)).
Proof.
  intros Hraise. unfold transfer, bind, attempt.
  destruct (download_file _ _ _ _ w) as [r w1]. simpl in Hraise. subst r.
  simpl. now destruct e.
Qed.

(** X5. When the download raises, the handler makes exactly one more call,
    an edit of the status message to the failure text of that exception,
    and stops: nothing is uploaded, every call of the run is an edit, the
    file system stays as the download left it, and the outcome is the
    outcome of that last edit. *)
Theorem failed_download_is_reported_not_uploaded E m url file_path w e :
  let download := download_file E url file_path (Some (report_progress E)) in
  fst (download w) = Raise e ->
  let run := transfer E m url file_path in
  let answer :=
    platform E (List.length (chat (snd (download w))))
      (EditText (download_failure_text e)) in
  said_by run w
    = (said_by download w ++ [(EditText (download_failure_text e), answer)])%list
  /\ Forall (fun x => is_edit (fst x)) (said_by run w)
  /\ fs (snd (run w)) = fs (snd (download w))
  /\ fst (run w) = match answer with
                   | None => Ok tt
                   | Some o => Raise (Outside o)
                   end.
Proof.
  intros download Hraise run answer.
  pose proof (download_edits_only E url file_path w) as Hedits.
  destruct (download_log E url file_path w) as [_ Hchat].
  fold download in Hedits, Hchat.
  pose proof (transfer_after_failed_download E m url file_path w e Hraise) as Hrun.
  fold download run in Hrun.
  destruct (tg_chat E (EditText (download_failure_text e)) (snd (download w)))
    as (Hc & Hf & _ & Hr).
  fold answer in Hc, Hr.
  assert (said_by run w
          = (said_by download w ++ [(EditText (download_failure_text e), answer)])%list)
    as Hsaid.
  { unfold said_by at 1. rewrite Hrun, Hc, Hchat, <- app_assoc.
    apply skipn_app_length. }
  split; [exact Hsaid|]. split.
  - rewrite Hsaid. apply Forall_app. split; [exact Hedits|].
    constructor; [exact I|constructor].
  - rewrite Hrun. split; [exact Hf|exact Hr].
Qed.

Lemma failed_download_is_reported_not_uploaded_witness :
  let E := {| http_get := serving {| status := 404; content_length := None;
                                     body := []; body_error := None |};
              platform := willing |} in
  let m := {| text := "http://example.com/a.bin"; chat_id := 7; message_id := 9 |} in
  said_by (transfer E m "http://example.com/a.bin" "/tmp/a.bin") empty_world
    = [(EditText "❌ Download failed: HTTP 404", None)]
  /\ fst (transfer E m "http://example.com/a.bin" "/tmp/a.bin" empty_world) = Ok tt.
Proof.
  intros E m.
  destruct (failed_download_is_reported_not_uploaded E m
              "http://example.com/a.bin" "/tmp/a.bin" empty_world
              (DownloadError "HTTP 404") eq_refl) as (H1 & _ & _ & H4).
  split; [exact H1|exact H4].
Defined.

(** *** What escapes the handler *)





(** The cleanup of lines 126-130 never raises and makes no call. *)
Lemma cleanup_quiet file_path w :
  let cleanup :=
    try_except (os_remove file_path)
      (fun e => match e with OSError _ => ret tt | _ => raise e end) in
  fst (cleanup w) = Ok tt /\ chat (snd (cleanup w)) = chat w
  /\ fs (snd (cleanup w)) = delete file_path (fs w).
Proof.
  unfold try_except, os_remove.
  destruct (fs w !! file_path) eqn:Hq; simpl; repeat split.
  symmetry. now apply delete_id.
Qed.





(** X7. However the upload ends, accepted or rejected at any of its calls,
    its only effect on the file system is that the downloaded file is
    gone. *)
Theorem upload_deletes_exactly_the_file E m url file_path w :
  fs (snd (upload E m url file_path w)) = delete file_path (fs w).
Proof.
  unfold upload, try_finally.
  match goal with |- context [try_except ?a ?h w] =>
    assert (fs (snd (try_except a h w)) = fs w) as Hfs;
      [|destruct (try_except a h w) as [r w1]]
  end.
  { pose proof (tg_chat E) as Ht.
    unfold try_except, bind.
    destruct (Ht (SendChatAction (chat_id m) "upload_document") w) as (_ & H1 & _).
    destruct (tg E (SendChatAction (chat_id m) "upload_document") w) as [[[]|e] w1];
      simpl in *.
    - destruct (Ht (SendDocument (chat_id m) file_path (caption_of url) (message_id m)) w1)
        as (_ & H2 & _).
      destruct (tg E (SendDocument _ _ _ _) w1) as [[[]|e] w2]; simpl in *;
        [congruence|].
      rewrite <- H1, <- H2.
      destruct e as [| | | |[msg|msg|msg]]; try apply tg_chat.
      destruct (Str.contains _ msg); apply tg_chat.
    - rewrite <- H1.
      destruct e as [| | | |[msg|msg|msg]]; try apply tg_chat.
      destruct (Str.contains _ msg); apply tg_chat. }
  simpl in Hfs.
  destruct (cleanup_quiet file_path w1) as (Hok & _ & Hdel). simpl in Hok, Hdel.
  destruct (try_except (os_remove file_path) _ w1) as [[[]|e'] w2];
    simpl in *; [|discriminate].
  now rewrite Hdel, Hfs.
Qed.

(** X8. The calls of the upload block. The document is sent only after the
    chat action was accepted; when both are accepted nothing else is said
    and the block returns normally; when either is rejected the block makes
    exactly one more call, an edit of the status message to the failure
    text of that rejection, and its outcome is the outcome of that edit. *)
Theorem upload_reports_first_rejection E m url file_path w :
  let run := upload E m url file_path in
  let action := SendChatAction (chat_id m) "upload_document" in
  let doc := SendDocument (chat_id m) file_path (caption_of url) (message_id m) in
  (said_by run w = [(action, None); (doc, None)] /\ fst (run w) = Ok tt)
  \/ exists o answer,
       (said_by run w
          = [(action, Some o); (EditText (upload_failure_text o), answer)]
        \/ said_by run w
          = [(action, None); (doc, Some o);
             (EditText (upload_failure_text o), answer)])
       /\ fst (run w) = match answer with
                        | None => Ok tt
                        | Some e => Raise (Outside e)
                        end.
Proof.
  intros run action doc. subst run. unfold said_by.
  unfold upload, try_finally. fold action doc.
  match goal with |- context [try_except ?a ?h w] =>
    set (handler := h); set (body := try_except a handler)
  end.
  assert (forall o, handler (Outside o) = tg E (EditText (upload_failure_text o)))
    as Hhandler.
  { intros [msg|msg|msg]; subst handler; simpl; try reflexivity.
    now destruct (Str.contains _ msg). }
  clearbody handler.
  assert ((chat (snd (body w)) = (chat w ++ [(action, None); (doc, None)])%list
           /\ fst (body w) = Ok tt)
          \/ exists o answer,
               (chat (snd (body w))
                  = (chat w ++ [(action, Some o);
                                (EditText (upload_failure_text o), answer)])%list
                \/ chat (snd (body w))
                  = (chat w ++ [(action, None); (doc, Some o);
                                (EditText (upload_failure_text o), answer)])%list)
               /\ fst (body w) = match answer with
                                 | None => Ok tt
                                 | Some e => Raise (Outside e)
                                 end) as Hbody.
  { subst body. unfold try_except, bind.
    destruct (tg_chat E action w) as (Hc1 & _ & _ & Hr1).
    destruct (tg E action w) as [r1 w1]. cbn [fst snd] in *.
    destruct (platform E (List.length (chat w)) action) as [o|]; subst r1.
    - right. exists o.
      exists (platform E (List.length (chat w1)) (EditText (upload_failure_text o))).
      rewrite Hhandler.
      destruct (tg_chat E (EditText (upload_failure_text o)) w1) as (Hc & _ & _ & Hr).
      split; [left|exact Hr]. now rewrite Hc, Hc1, <- app_assoc.
    - destruct (tg_chat E doc w1) as (Hc2 & _ & _ & Hr2).
      destruct (tg E doc w1) as [r2 w2]. cbn [fst snd] in *.
      destruct (platform E (List.length (chat w1)) doc) as [o|]; subst r2.
      + right. exists o.
        exists (platform E (List.length (chat w2)) (EditText (upload_failure_text o))).
        rewrite Hhandler.
        destruct (tg_chat E (EditText (upload_failure_text o)) w2) as (Hc & _ & _ & Hr).
        split; [right|exact Hr]. now rewrite Hc, Hc2, Hc1, <- !app_assoc.
      + left. cbn [fst snd]. split; [|reflexivity].
        now rewrite Hc2, Hc1, <- app_assoc. }
  destruct (body w) as [r w1]. cbn [fst snd] in Hbody.
  destruct (cleanup_quiet file_path w1) as (Hok & Hchat & _).
  cbn zeta in Hok, Hchat.
  destruct (try_except (os_remove file_path) _ w1) as [[[]|e'] w2];
    cbn [fst snd] in *; [|discriminate].
  rewrite Hchat.
  destruct Hbody as [[-> ->]|(o & answer & [->| ->] & ->)].
  - left. now rewrite skipn_app_length.
  - right. exists o, answer. rewrite skipn_app_length. split; [now left|reflexivity].
  - right. exists o, answer. rewrite skipn_app_length. split; [now right|reflexivity].
Qed.

(** *** When the file is removed *)

Lemma tg_said E c w :
  said_by (tg E c) w = [(c, platform E (List.length (chat w)) c)].
Proof.
  unfold said_by. destruct (tg_chat E c w) as (-> & _).
  apply skipn_app_length.
Qed.

Lemma transfer_removes_or_only_edits E m url file_path w :
  fs (snd (transfer E m url file_path w)) !! file_path = None
  \/ Forall (fun x => is_edit (fst x)) (said_by (transfer E m url file_path) w).
Proof.
  pose proof (download_edits_only E url file_path w) as Hedits.
  destruct (download_log E url file_path w) as [_ Hchat]. cbn zeta in Hchat.
  set (download := download_file E url file_path (Some (report_progress E))) in *.
  destruct (fst (download w)) as [[]|e] eqn:Hdl.
  - destruct (platform E (List.length (chat (snd (download w))))
                (EditText "📤 Uploading…")) as [o|] eqn:Hp.
    + right. unfold said_by at 1. unfold transfer, bind, attempt. fold download.
      generalize dependent (said_by download w). intros said Hedits Hchat.
      destruct (download w) as [r w1]. cbn [fst snd] in *. subst r.
      destruct (tg_chat E (EditText "📤 Uploading…") w1) as (Hc & _ & _ & Hr).
      rewrite Hp in Hr, Hc.
      destruct (tg E (EditText "📤 Uploading…") w1) as [r w2].
      cbn [fst snd] in *. subst r. cbn [snd].
      rewrite Hc, Hchat, <- app_assoc, skipn_app_length.
      apply Forall_app. split; [exact Hedits|]. now repeat constructor.
    + left. now apply transfer_removes_file_after_download.
  - right. unfold said_by at 1.
    rewrite (transfer_after_failed_download E m url file_path w e Hdl).
    fold download.
    destruct (tg_chat E (EditText (download_failure_text e)) (snd (download w)))
      as (-> & _).
    rewrite Hchat, <- app_assoc, skipn_app_length.
    apply Forall_app. split; [exact Hedits|]. now repeat constructor.
Qed.

(** X9. Once the handler has tried to announce the upload to the chat,
    the downloaded file is gone when the handler ends, whatever the
    platform answered to that call and to the ones after it. *)
Theorem file_is_gone_once_upload_is_attempted
    guess_type guess_extension E m w cid action o :
  let url := link_of m in
  let file_path := file_path_of guess_type guess_extension url in
  let run := handle_link guess_type guess_extension E m in
  In (SendChatAction cid action, o) (said_by run w) ->
  fs (snd (run w)) !! file_path = None.
Proof.
  intros url file_path run. subst run. unfold handle_link. fold url file_path.
  destruct (_ || _).
  { rewrite tg_said. intros [H|[]]. discriminate. }
  unfold said_by, bind.
  destruct (tg_chat E (Reply "📥 Starting download…") w) as (Hc & _ & _ & Hr).
  destruct (tg E (Reply "📥 Starting download…") w) as [r w1].
  cbn [fst snd] in *.
  destruct (platform E (List.length (chat w)) (Reply "📥 Starting download…"))
    as [e|]; subst r; cbn [snd].
  { rewrite Hc, skipn_app_length. intros [H|[]]. discriminate. }
  destruct (transfer_chat guess_type guess_extension E m w1) as (l & Hl & _).
  fold url file_path in Hl.
  destruct (transfer_removes_or_only_edits E m url file_path w1) as [Hgone|Hedits];
    [intros _; exact Hgone|].
  unfold said_by in Hedits. rewrite Hl, skipn_app_length in Hedits.
  rewrite Hl, Hc, <- app_assoc, skipn_app_length.
  intros [H|Hin]; [discriminate|].
  rewrite Forall_forall in Hedits.
  apply list_elem_of_In, Hedits in Hin. destruct Hin.
Qed.

Lemma file_is_gone_once_upload_is_attempted_witness :
  let E := {| http_get := serving {| status := 200; content_length := Some 6%N;
                                     body := at_seconds [("abc", 5%Z); ("def", 5%Z)];
                                     body_error := None |};
              platform := fun n c =>
                match c with
                | SendChatAction _ _ => Some (OtherError "timed out")
                | _ => None
                end |} in
  let m := {| text := "http://example.com/a.bin"; chat_id := 7; message_id := 9 |} in
  let run := handle_link sample_guess_type sample_guess_extension E m in
  fs (snd (run empty_world))
    !! file_path_of sample_guess_type sample_guess_extension (link_of m) = None.
Proof.
  intros E m run.
  apply (file_is_gone_once_upload_is_attempted
           sample_guess_type sample_guess_extension E m empty_world
           7%Z "upload_document" (Some (OtherError "timed out"))).
  vm_compute. right. right. right. right. left. reflexivity.
Defined.

(** *** Start-up (lines 142-152) *)

Module LifecycleFacts.
Import Lifecycle.

Lemma call_log P c l :
  snd (call P c l) = (l ++ [(c, rejects P (List.length l) c)])%list
  /\ fst (call P c l) = match rejects P (List.length l) c with
                        | Some e => inl e
                        | None => inr tt
                        end.
Proof. split; reflexivity. Qed.

(** The calls of a start-up, in order. *)
Lemma on_startup_calls P full l :
  let run := on_startup P full l in
  exists new, snd run = (l ++ new)%list
    /\ ((exists e, new = [(GetWebhookInfo, Some e)] /\ fst run = inl e)
        \/ (new = [(GetWebhookInfo, None)] /\ webhook_url P = full
            /\ fst run = inr tt)
        \/ (webhook_url P <> full
            /\ ((new = [(GetWebhookInfo, None); (SetWebhook full, None)]
                 /\ fst run = inr tt)
                \/ (exists msg,
                      new = [(GetWebhookInfo, None);
                             (SetWebhook full, Some (Other msg))]
                      /\ fst run = inl (Other msg))
                \/ (exists n answer,
                      new = [(GetWebhookInfo, None);
                             (SetWebhook full, Some (RetryAfter n));
                             (Sleep n, None); (SetWebhook full, answer)]
                      /\ fst run = match answer with
                                   | Some e => inl e
                                   | None => inr tt
                                   end)))).
Proof.
  unfold on_startup, get_webhook_url, sleep, call. cbn [fst snd].
  destruct (rejects P (List.length l) GetWebhookInfo) as [e|].
  { eexists. split; [reflexivity|]. left. now exists e. }
  destruct (String.eqb_spec (webhook_url P) full) as [Heq|Hne]; cbn [negb].
  { eexists. split; [reflexivity|]. right. left. now repeat split. }
  destruct (rejects P _ (SetWebhook full)) as [[n|msg]|] eqn:Hset.
  - eexists. split; [rewrite <- !app_assoc; reflexivity|].
    right. right. split; [exact Hne|]. right. right. cbn [fst snd].
    exists n. eexists. split; [reflexivity|].
    now rewrite <- !app_assoc.
  - eexists. split; [rewrite <- !app_assoc; reflexivity|].
    right. right. split; [exact Hne|]. right. left. now exists msg.
  - eexists. split; [rewrite <- !app_assoc; reflexivity|].
    right. right. split; [exact Hne|]. now left.
Qed.

End LifecycleFacts.

(** X10. How a start-up ends. When it returns normally, either the platform
    already reported the wanted address, or the last call is an accepted
    registration of that address. When it raises, the exception is the
    platform's rejection of the call made last, a query or a registration;
    in particular a second demand to wait is not caught. *)
Theorem startup_ends_registered_or_raises_last_rejection P full l :
  let run := Lifecycle.on_startup P full l in
  match fst run with
  | inr _ =>
      Lifecycle.webhook_url P = full
      \/ last (snd run) = Some (Lifecycle.SetWebhook full, None)
  | inl e =>
      exists c, last (snd run) = Some (c, Some e)
        /\ (c = Lifecycle.GetWebhookInfo \/ c = Lifecycle.SetWebhook full)
  end.
Proof.
  intros run.
  destruct (LifecycleFacts.on_startup_calls P full l) as (new & Hlog & Hcases).
  fold run in Hlog, Hcases. rewrite Hlog.
  destruct Hcases as [(e & -> & ->)|[(-> & Heq & ->)|(Hne & Hcases)]].
  - exists Lifecycle.GetWebhookInfo. split; [apply last_snoc|now left].
  - now left.
  - destruct Hcases as [(-> & ->)|[(msg & -> & ->)|(n & answer & -> & ->)]].
    + right. now rewrite last_app.
    + exists (Lifecycle.SetWebhook full).
      split; [now rewrite last_app|now right].
    + assert (last (l ++ [(Lifecycle.GetWebhookInfo, None);
                          (Lifecycle.SetWebhook full, Some (Lifecycle.RetryAfter n));
                          (Lifecycle.Sleep n, None);
                          (Lifecycle.SetWebhook full, answer)])
              = Some (Lifecycle.SetWebhook full, answer)) as Hlast
        by now rewrite last_app.
      rewrite Hlast. destruct answer as [e|]; [|now right].
      exists (Lifecycle.SetWebhook full). split; [reflexivity|now right].
Qed.

(** X11. The retry discipline of a start-up. It registers the address at
    most twice, and not at all when the platform already reports it; it
    never registers another address; and a registration is followed by
    anything only when the platform answered it with a demand to wait, and
    then by a sleep of exactly the demanded time and one more
    registration. *)
Theorem startup_retries_once_after_the_demanded_wait P full l :
  let new := skipn (List.length l) (snd (Lifecycle.on_startup P full l)) in
  let sets := List.filter (fun x => Lifecycle.is_set_webhook (fst x)) new in
  (List.length sets <= 2)%nat
  /\ (Lifecycle.webhook_url P = full -> sets = [])
  /\ Forall (fun x => fst x = Lifecycle.SetWebhook full) sets
  /\ forall pre url r post,
       new = (pre ++ (Lifecycle.SetWebhook url, r) :: post)%list ->
       post <> [] ->
       exists n answer,
         r = Some (Lifecycle.RetryAfter n)
         /\ post = [(Lifecycle.Sleep n, None); (Lifecycle.SetWebhook full, answer)].
Proof.
  intros new sets.
  destruct (LifecycleFacts.on_startup_calls P full l) as (new' & Hlog & Hcases).
  cbn zeta in Hlog, Hcases.
  assert (new = new') as Hnew
    by (unfold new; rewrite Hlog; apply skipn_app_length).
  subst sets. rewrite Hnew. clear Hnew new Hlog.
  destruct Hcases as [(e & -> & _)|[(-> & Heq & _)|(Hne & Hcases)]].
  - cbn. repeat split; [lia|constructor|].
    intros [|? [|? ?]] url r post H; discriminate.
  - cbn. repeat split; [lia|constructor|].
    intros [|? [|? ?]] url r post H; discriminate.
  - destruct Hcases as [(-> & _)|[(msg & -> & _)|(n & answer & -> & _)]]; cbn.
    + repeat split; [lia|contradiction|repeat constructor|].
      intros [|? [|? [|? ?]]] url r post H Hpost; try discriminate.
      injection H as _ _ _ <-. contradiction.
    + repeat split; [lia|contradiction|repeat constructor|].
      intros [|? [|? [|? ?]]] url r post H Hpost; try discriminate.
      injection H as _ _ _ <-. contradiction.
    + repeat split; [lia|contradiction|repeat constructor|].
      intros [|? [|? [|? [|? [|? ?]]]]] url r post H Hpost; try discriminate.
      * injection H as _ _ <- <-. now exists n, answer.
      * injection H as _ _ _ _ _ <-. contradiction.
Qed.
